(** * pokedex-sample: the table extractor of [main.py]

    A shallow embedding of [TextUtil.is_digit], [get_cell_text] and the
    [Pokedex] extraction methods, with the properties of the extraction
    layer proved over it.

    Conventions.
    - A Python [str] is a Rocq [string]; each [ascii] stands for the code
      point of the same number, so the development covers the texts whose
      code points are below 256.  The character classes are the ones
      [str.isdigit], [str.isspace] and [int] use on that range.
    - [Union[str, int]] is the tagged type [value].
    - A raised exception is the [Raise] outcome of [result]; exceptions are
      never caught in [main.py], so they propagate through [bind].
    - A parsed document is a tree of [node]s: strings and tags.  A string
      has the class the parser gives it: character data is a plain string
      unless it lies in a script, style, template, rt or rp tag; comments
      and the like have classes of their own.
    - A [dict] is an association list in insertion order. *)

From Stdlib Require Import String Ascii List ZArith NArith Bool Arith Lia.
Import ListNotations.

Local Open Scope string_scope.
Local Open Scope list_scope.

(* ------------------------------------------------------------------ *)
(** ** Outcomes of a call *)

Inductive exn : Type :=
| ValueError
| AttributeError
| KeyError.

Inductive result (A : Type) : Type :=
| Ok (a : A)
| Raise (e : exn).

Arguments Ok {A} a.
Arguments Raise {A} e.

Definition bind {A B : Type} (r : result A) (k : A -> result B) : result B :=
  match r with
  | Ok a => k a
  | Raise e => Raise e
  end.

Notation "x <- c ;; k" := (bind c (fun x => k))
  (at level 61, c at next level, right associativity).

(** A [for] loop whose body may raise: the state is threaded through the
    items in order and the first exception ends the loop. *)
Fixpoint for_each {S X : Type} (body : S -> X -> result S)
         (items : list X) (s : S) : result S :=
  match items with
  | [] => Ok s
  | x :: rest => s' <- body s x ;; for_each body rest s'
  end.

(* ------------------------------------------------------------------ *)
(** ** The [str] methods and the [int] constructor used by the program *)

Module PyStr.

Definition code (c : ascii) : N := N_of_ascii c.

(** [c.isdigit()]: the ASCII digits and the superscripts U+00B2, U+00B3
    and U+00B9. *)
Definition isdigit_char (c : ascii) : bool :=
  ((48 <=? code c) && (code c <=? 57) || (code c =? 178)
   || (code c =? 179) || (code c =? 185))%N.

(** The decimal digits accepted by [int]: '0' to '9'. *)
Definition isdecimal_char (c : ascii) : bool :=
  ((48 <=? code c) && (code c <=? 57))%N.

(** [c.isspace()]. *)
Definition isspace_char (c : ascii) : bool :=
  ((9 <=? code c) && (code c <=? 13) || (28 <=? code c) && (code c <=? 32)
   || (code c =? 133) || (code c =? 160))%N.

Fixpoint mem (c : ascii) (chars : string) : bool :=
  match chars with
  | "" => false
  | String d rest => Ascii.eqb c d || mem c rest
  end.

Fixpoint all (p : ascii -> bool) (s : string) : bool :=
  match s with
  | "" => true
  | String c rest => p c && all p rest
  end.

(** [s.isdigit()]: every character is a digit and there is at least one. *)
Definition isdigit (s : string) : bool :=
  match s with
  | "" => false
  | String _ _ => all isdigit_char s
  end.

(** [s[:n]]: a slice never raises, it is cut at the end of [s]. *)
Fixpoint slice_to (n : nat) (s : string) : string :=
  match n, s with
  | S m, String c rest => String c (slice_to m rest)
  | _, _ => ""
  end.

Fixpoint lstrip_by (p : ascii -> bool) (s : string) : string :=
  match s with
  | "" => ""
  | String c rest => if p c then lstrip_by p rest else s
  end.

Fixpoint rstrip_by (p : ascii -> bool) (s : string) : string :=
  match s with
  | "" => ""
  | String c rest =>
      match rstrip_by p rest with
      | "" => if p c then "" else String c ""
      | kept => String c kept
      end
  end.

(** [s.lstrip(chars)]: every leading character that occurs in [chars]
    is removed, however many there are. *)
Definition lstrip (chars : string) (s : string) : string :=
  lstrip_by (fun c => mem c chars) s.

(** [s.strip()]. *)
Definition strip (s : string) : string :=
  rstrip_by isspace_char (lstrip_by isspace_char s).

(** [s.split(sep)] for a separator of one character. *)
Fixpoint split (sep : ascii) (s : string) : list string :=
  match s with
  | "" => [""]
  | String c rest =>
      if Ascii.eqb c sep then "" :: split sep rest
      else match split sep rest with
           | first :: others => String c first :: others
           | [] => [String c ""]
           end
  end.

(** [sep.join(parts)]. *)
Definition join (sep : string) (parts : list string) : string :=
  String.concat sep parts.

Definition digit_value (c : ascii) : Z := Z.of_N (code c) - 48.

(** The digits of an [int] literal: decimal digits, with single
    underscores allowed between two digits. *)
Fixpoint int_digits (s : string) (acc : Z) (after_digit : bool) : option Z :=
  match s with
  | "" => if after_digit then Some acc else None
  | String c rest =>
      if isdecimal_char c then int_digits rest (10 * acc + digit_value c) true
      else if Ascii.eqb c "_" && after_digit then int_digits rest acc false
      else None
  end.

(** The whitespace [int] drops around a literal: of the characters
    [isspace] accepts, the separators U+001C to U+001F are not among it. *)
Definition int_space_char (c : ascii) : bool :=
  ((9 <=? code c) && (code c <=? 13) || (code c =? 32)
   || (code c =? 133) || (code c =? 160))%N.

(** The digits of a literal that count towards the interpreter's limit:
    underscores do not. *)
Fixpoint count_digits (s : string) : N :=
  match s with
  | "" => 0%N
  | String c rest =>
      if isdecimal_char c then N.succ (count_digits rest) else count_digits rest
  end.

(** [sys.get_int_max_str_digits()], which the program leaves at its
    default. *)
Definition int_max_str_digits : N := 4300%N.

(** The literal after the sign: [ValueError] when it is malformed or has
    more digits than the limit. *)
Definition int_literal (digits : string) : option Z :=
  if (count_digits digits <=? int_max_str_digits)%N
  then int_digits digits 0 false
  else None.

(** [int(s)]: surrounding whitespace is dropped, then at most one sign,
    then the literal; [None] stands for [ValueError]. *)
Definition int (s : string) : option Z :=
  match rstrip_by int_space_char (lstrip_by int_space_char s) with
  | String "-" digits => option_map Z.opp (int_literal digits)
  | String "+" digits => int_literal digits
  | digits => int_literal digits
  end.

End PyStr.

(* ------------------------------------------------------------------ *)
(** ** [TextUtil] *)

Module TextUtil.

(** [return s[:2] != '+-' and s[:2] != '-+'
           and s.lstrip('-').lstrip('+').isdigit()] *)
Definition is_digit (s : string) : bool :=
  negb (String.eqb (PyStr.slice_to 2 s) "+-")
  && negb (String.eqb (PyStr.slice_to 2 s) "-+")
  && PyStr.isdigit (PyStr.lstrip "+" (PyStr.lstrip "-" s)).

End TextUtil.

(* ------------------------------------------------------------------ *)
(** ** The parsed document *)

(** The classes of strings other than the plain [NavigableString]. *)
Inductive string_class : Type :=
| CData
| ProcessingInstruction
| Comment
| Declaration
| Doctype
| Stylesheet
| Script
| TemplateString
| RubyTextString
| RubyParenthesisString.

(** A page element: character data, a string of a class of its own, or a
    tag with its contents. *)
#[local] Unset Elimination Schemes.
Inductive node : Type :=
| Text (s : string)
| Special (class : string_class) (s : string)
| Tag (name : string) (contents : list node).
#[local] Set Elimination Schemes.

(** Induction over a document: the property may be assumed for all the
    contents of a tag. *)
Section NodeInduction.
Variable P : node -> Prop.
Hypothesis on_text : forall s, P (Text s).
Hypothesis on_special : forall class s, P (Special class s).
Hypothesis on_tag :
  forall name contents, Forall P contents -> P (Tag name contents).

Fixpoint node_ind (n : node) : P n :=
  match n with
  | Text s => on_text s
  | Special class s => on_special class s
  | Tag name contents =>
      on_tag name contents
        ((fix each (l : list node) : Forall P l :=
            match l with
            | [] => Forall_nil P
            | c :: rest => Forall_cons c (node_ind c) (each rest)
            end) contents)
  end.
End NodeInduction.

Module Soup.

Definition class_eqb (a b : string_class) : bool :=
  match a, b with
  | CData, CData
  | ProcessingInstruction, ProcessingInstruction
  | Comment, Comment
  | Declaration, Declaration
  | Doctype, Doctype
  | Stylesheet, Stylesheet
  | Script, Script
  | TemplateString, TemplateString
  | RubyTextString, RubyTextString
  | RubyParenthesisString, RubyParenthesisString => true
  | _, _ => false
  end.

(** The builder's [string_containers]: the tags whose character data gets
    a class of its own. *)
Definition string_containers (name : string) : option string_class :=
  if String.eqb name "rt" then Some RubyTextString
  else if String.eqb name "rp" then Some RubyParenthesisString
  else if String.eqb name "style" then Some Stylesheet
  else if String.eqb name "script" then Some Script
  else if String.eqb name "template" then Some TemplateString
  else None.

(** The container class in force below a tag called [name]. *)
Definition entering (name : string) (inside : option string_class)
  : option string_class :=
  match string_containers name with
  | Some class => Some class
  | None => inside
  end.

(** The element as the parser builds it: character data takes the class of
    the innermost container tag around it; [inside] is the class in force
    where the element stands. *)
Fixpoint settle (inside : option string_class) (n : node) : node :=
  match n with
  | Text s =>
      match inside with
      | Some class => Special class s
      | None => Text s
      end
  | Special class s => Special class s
  | Tag name contents => Tag name (map (settle (entering name inside)) contents)
  end.

(** Everything below an element, in document order (a tag comes before its
    contents). *)
Fixpoint below (n : node) : list node :=
  match n with
  | Text _ => []
  | Special _ _ => []
  | Tag _ contents => flat_map (fun c => c :: below c) contents
  end.

(** [element.descendants] *)
Definition descendants (n : node) : list node := below (settle None n).

Definition is_tag (name : string) (n : node) : bool :=
  match n with
  | Text _ => false
  | Special _ _ => false
  | Tag m _ => String.eqb m name
  end.

(** [element.find_all(name)]. *)
Definition find_all (name : string) (n : node) : list node :=
  filter (is_tag name) (descendants n).

(** [element.find(name)]: the first match, [None] when there is none. *)
Definition find (name : string) (n : node) : option node :=
  match find_all name n with
  | [] => None
  | first :: _ => Some first
  end.

(** What a descendant gives to the text of a tag whose own container class
    is [own]: the string, when its class is among the tag's
    [interesting_string_types], which are the tag's container class alone,
    or else [NavigableString] and [CData]. *)
Definition interesting (own : option string_class) (d : node) : list string :=
  match d with
  | Text s =>
      match own with
      | None => [s]
      | Some _ => []
      end
  | Special class s =>
      match own with
      | None => match class with CData => [s] | _ => [] end
      | Some class' => if class_eqb class class' then [s] else []
      end
  | Tag _ _ => []
  end.

(** The strings of an element that count as its text: for a tag, the
    interesting strings among its descendants; a string asked for its own
    text gives itself when it is plain or [CData]. *)
Definition raw_strings (n : node) : list string :=
  match n with
  | Text s => [s]
  | Special class s => match class with CData => [s] | _ => [] end
  | Tag name _ => flat_map (interesting (string_containers name)) (descendants n)
  end.

Definition nonempty (s : string) : bool :=
  match s with
  | "" => false
  | String _ _ => true
  end.

(** The strings [get_text] joins: with [strip] each string is stripped
    and dropped when nothing is left. *)
Definition all_strings (strip : bool) (n : node) : list string :=
  if strip then filter nonempty (map PyStr.strip (raw_strings n))
  else raw_strings n.

(** [element.get_text(separator, strip)]. *)
Definition get_text (separator : string) (strip : bool) (n : node) : string :=
  PyStr.join separator (all_strings strip n).

End Soup.

(* ------------------------------------------------------------------ *)
(** ** [get_cell_text] *)

(** [Union[str, int]] *)
Inductive value : Type :=
| VInt (i : Z)
| VStr (s : string).

(** [cell_text = cell.get_text()
     return int(cell_text) if TextUtil.is_digit(cell_text)
            else cell_text.strip()] *)
Definition get_cell_text (cell : node) : result value :=
  let cell_text := Soup.get_text "" false cell in
  if TextUtil.is_digit cell_text
  then match PyStr.int cell_text with
       | Some i => Ok (VInt i)
       | None => Raise ValueError
       end
  else Ok (VStr (PyStr.strip cell_text)).

(** The same function as a relation between a cell and an outcome, one
    rule per branch of the conditional expression. *)
Inductive get_cell_text_eval (cell : node) : result value -> Prop :=
| eval_int (i : Z) :
    TextUtil.is_digit (Soup.get_text "" false cell) = true ->
    PyStr.int (Soup.get_text "" false cell) = Some i ->
    get_cell_text_eval cell (Ok (VInt i))
| eval_int_error :
    TextUtil.is_digit (Soup.get_text "" false cell) = true ->
    PyStr.int (Soup.get_text "" false cell) = None ->
    get_cell_text_eval cell (Raise ValueError)
| eval_str :
    TextUtil.is_digit (Soup.get_text "" false cell) = false ->
    get_cell_text_eval cell (Ok (VStr (PyStr.strip (Soup.get_text "" false cell)))).

(* ------------------------------------------------------------------ *)
(** ** Dictionaries *)

Module Dict.

(** A [dict] with [str] keys: the items in insertion order, each key
    once. *)
Definition t (V : Type) : Type := list (string * V).

Definition keys {V : Type} (d : t V) : list string := map fst d.

Fixpoint get {V : Type} (d : t V) (k : string) : option V :=
  match d with
  | [] => None
  | (k', v) :: rest => if String.eqb k' k then Some v else get rest k
  end.

(** [d[k]] *)
Definition getitem {V : Type} (d : t V) (k : string) : result V :=
  match get d k with
  | Some v => Ok v
  | None => Raise KeyError
  end.

(** [d[k] = v]: a present key keeps its place, a new key goes last. *)
Fixpoint setitem {V : Type} (d : t V) (k : string) (v : V) : t V :=
  match d with
  | [] => [(k, v)]
  | (k', v') :: rest =>
      if String.eqb k' k then (k', v) :: rest
      else (k', v') :: setitem rest k v
  end.

(** [dict.fromkeys(iterable, v)] *)
Definition fromkeys {V : Type} (iterable : list string) (v : V) : t V :=
  fold_left (fun d k => setitem d k v) iterable [].

End Dict.

(* ------------------------------------------------------------------ *)
(** ** [Pokedex] *)

Module Pokedex.

(** The instance: [__pokedex_table__] is what [soup.find(id='pokedex')]
    returned, [None] when the page has no such element. *)
Record t : Type := { pokedex_table : option node }.

Definition LF : ascii := "010"%char.

(** [x.attr] on [None] raises [AttributeError]. *)
Definition deref (x : option node) : result node :=
  match x with
  | Some n => Ok n
  | None => Raise AttributeError
  end.

(** [return self.__pokedex_table__.find('thead')
               .get_text(separator='\n', strip=True).split('\n')] *)
Definition get_pokedex_column_labels (self : t) : result (list string) :=
  table <- deref (pokedex_table self) ;;
  thead <- deref (Soup.find "thead" table) ;;
  Ok (PyStr.split LF (Soup.get_text (String LF "") true thead)).

(** [return self.__pokedex_table__.find('tbody').find_all('tr')] *)
Definition get_pokedex_content_rows (self : t) : result (list node) :=
  table <- deref (pokedex_table self) ;;
  tbody <- deref (Soup.find "tbody" table) ;;
  Ok (Soup.find_all "tr" tbody).

(** The body of the inner loop:
    [cell_text = get_cell_text(cell)
     updated_values = data_dict[col_label] + [cell_text]
     data_dict[col_label] = updated_values] *)
Definition add_cell (data_dict : Dict.t (list value))
           (pair : node * string) : result (Dict.t (list value)) :=
  let (cell, col_label) := pair in
  cell_text <- get_cell_text cell ;;
  current <- Dict.getitem data_dict col_label ;;
  let updated_values := current ++ [cell_text] in
  Ok (Dict.setitem data_dict col_label updated_values).

(** The body of the outer loop:
    [row_cells = data_row.find_all('td')
     cell_col_zip = zip(row_cells, column_labels)
     for cell, col_label in cell_col_zip: ...] *)
Definition add_row (column_labels : list string)
           (data_dict : Dict.t (list value))
           (data_row : node) : result (Dict.t (list value)) :=
  let row_cells := Soup.find_all "td" data_row in
  let cell_col_zip := combine row_cells column_labels in
  for_each add_cell cell_col_zip data_dict.

(** [data_dict = dict.fromkeys(column_labels, [])
     for data_row in content_rows: ...
     return data_dict]

    [fromkeys] gives every key the same list object; the loop never
    changes that object, [+] builds a new list each time, so the lists
    are plain values here. *)
Definition get_pokedex_data_dict (column_labels : list string)
           (content_rows : list node) : result (Dict.t (list value)) :=
  let data_dict := Dict.fromkeys column_labels [] in
  for_each (add_row column_labels) content_rows data_dict.

End Pokedex.

(* ------------------------------------------------------------------ *)
(** ** The script *)

(** The [__main__] block up to the table, for an instance already built:
    [column_labels = pokedex.get_pokedex_column_labels()
     content_rows = pokedex.get_pokedex_content_rows()
     data_dict = pokedex.get_pokedex_data_dict(column_labels, content_rows)]
    The [DataFrame] made of the table and the file written from it belong
    to pandas and are left out. *)
Definition main_data_dict (pokedex : Pokedex.t) : result (Dict.t (list value)) :=
  column_labels <- Pokedex.get_pokedex_column_labels pokedex ;;
  content_rows <- Pokedex.get_pokedex_content_rows pokedex ;;
  Pokedex.get_pokedex_data_dict column_labels content_rows.

(* ------------------------------------------------------------------ *)
(** ** Notions used to state the properties *)

Definition td (s : string) : node := Tag "td" [Text s].
Definition tr (cells : list string) : node := Tag "tr" (map td cells).

(** [n] copies of the character [c]. *)
Fixpoint repeat_char (c : ascii) (n : nat) : string :=
  match n with
  | O => ""
  | S m => String c (repeat_char c m)
  end.

(** The string does not begin with the character [c]. *)
Definition not_headed_by (c : ascii) (s : string) : bool :=
  match s with
  | "" => true
  | String d _ => negb (Ascii.eqb d c)
  end.

(** The string does not begin with a character of the class [p]. *)
Definition head_outside (p : ascii -> bool) (s : string) : bool :=
  match s with
  | "" => true
  | String c _ => negb (p c)
  end.

(** The digits are few enough for [int]. *)
Definition within_digit_limit (digits : string) : Prop :=
  (N.of_nat (String.length digits) <= PyStr.int_max_str_digits)%N.

(** The string does not end with a character of the class [p]. *)
Fixpoint last_outside (p : ascii -> bool) (s : string) : bool :=
  match s with
  | "" => true
  | String c "" => negb (p c)
  | String _ rest => last_outside p rest
  end.

(** No two adjacent characters of the string are both [sep]. *)
Fixpoint no_adjacent (sep : ascii) (s : string) : bool :=
  match s with
  | String a (String b _ as rest) =>
      negb (Ascii.eqb a sep && Ascii.eqb b sep) && no_adjacent sep rest
  | _ => true
  end.

(** Every piece between two [sep] is non-empty; [fresh] tells that the
    piece being read has no character yet. *)
Fixpoint pieces_ok (sep : ascii) (s : string) (fresh : bool) : bool :=
  match s with
  | "" => negb fresh
  | String c rest =>
      if Ascii.eqb c sep then negb fresh && pieces_ok sep rest true
      else pieces_ok sep rest false
  end.




(** The integer written by a string of decimal digits. *)
Fixpoint decimal_from (acc : Z) (digits : string) : Z :=
  match digits with
  | "" => acc
  | String c rest => decimal_from (10 * acc + PyStr.digit_value c) rest
  end.

Definition decimal_value (digits : string) : Z := decimal_from 0 digits.

(** A string of one or more decimal digits. *)
Definition decimal_digits (s : string) : Prop :=
  s <> "" /\ PyStr.all PyStr.isdecimal_char s = true.

(** The element has a tag called [name] somewhere below it. *)
Fixpoint contains_tag (name : string) (n : node) : bool :=
  match n with
  | Text _ => false
  | Special _ _ => false
  | Tag _ contents =>
      existsb (fun c => Soup.is_tag name c || contains_tag name c) contents
  end.

(** The labels without their repetitions, each at its first place. *)
Fixpoint distinct (labels : list string) : list string :=
  match labels with
  | [] => []
  | l :: rest => l :: filter (fun l' => negb (String.eqb l' l)) (distinct rest)
  end.

(** [l] is none of the labels [seen]. *)
Definition absent_from (seen : list string) : string -> bool :=
  fun l => negb (existsb (String.eqb l) seen).

(** The cell resolves to a value. *)
Definition resolves (cell : node) : Prop :=
  exists v, get_cell_text cell = Ok v.

(** The value of a cell, as a list: empty when resolving raises. *)
Definition resolved (cell : node) : list value :=
  match get_cell_text cell with
  | Ok v => [v]
  | Raise _ => []
  end.

(** The (cell, label) pairs of a row: [zip(row_cells, column_labels)]. *)
Definition pairs_of (column_labels : list string) (data_row : node)
  : list (node * string) :=
  combine (Soup.find_all "td" data_row) column_labels.

(** The values of the cells paired with label [l], in cell order. *)
Definition paired_values (l : string) (pairs : list (node * string))
  : list value :=
  flat_map (fun pair => if String.eqb (snd pair) l then resolved (fst pair) else [])
           pairs.

(** The column of label [l]: the paired values of each row, in row order. *)
Definition column (column_labels : list string) (content_rows : list node)
           (l : string) : list value :=
  flat_map (fun row => paired_values l (pairs_of column_labels row)) content_rows.

(** Every cell that gets paired with a label resolves. *)
Definition row_resolves (column_labels : list string) (data_row : node) : Prop :=
  Forall (fun pair => resolves (fst pair)) (pairs_of column_labels data_row).

(** What a loop leaves in the dictionary: the keys are untouched and each
    present sequence is extended by [added l]. *)
Definition extends (d d' : Dict.t (list value)) (added : string -> list value) : Prop :=
  Dict.keys d' = Dict.keys d
  /\ forall l, Dict.get d' l = option_map (fun vs => vs ++ added l) (Dict.get d l).

(** Two tables side by side: each sequence of the first is followed by the
    sequence the second has for the same key. *)
Definition merge (d1 d2 : Dict.t (list value)) : Dict.t (list value) :=
  map (fun item =>
         (fst item,
          snd item ++ match Dict.get d2 (fst item) with
                      | Some vs => vs
                      | None => []
                      end))
      d1.

(** The number of values a table holds. *)
Definition value_count (d : Dict.t (list value)) : nat :=
  list_sum (map (fun item => length (snd item)) d).

(* ================================================================== *)
(** * Properties *)

(** ** Characters and strings *)

Lemma decimal_is_digit_char (c : ascii) :
  PyStr.isdecimal_char c = true -> PyStr.isdigit_char c = true.
Proof.
  unfold PyStr.isdecimal_char, PyStr.isdigit_char. intros ->. reflexivity.
Qed.

Lemma decimal_not_minus (c : ascii) :
  PyStr.isdecimal_char c = true -> Ascii.eqb c "-" = false.
Proof.
  intros H. destruct (Ascii.eqb_spec c "-") as [-> | _]; [discriminate H | reflexivity].
Qed.

Lemma decimal_not_plus (c : ascii) :
  PyStr.isdecimal_char c = true -> Ascii.eqb c "+" = false.
Proof.
  intros H. destruct (Ascii.eqb_spec c "+") as [-> | _]; [discriminate H | reflexivity].
Qed.

Lemma decimal_not_int_space (c : ascii) :
  PyStr.isdecimal_char c = true -> PyStr.int_space_char c = false.
Proof.
  unfold PyStr.isdecimal_char, PyStr.int_space_char. intros H.
  apply andb_true_iff in H. destruct H as [Hlo Hhi].
  apply N.leb_le in Hlo. apply N.leb_le in Hhi.
  repeat match goal with
         | |- (_ || _)%bool = false => apply orb_false_iff; split
         | |- (_ && _)%bool = false => apply andb_false_iff
         end.
  - right. apply N.leb_gt. lia.
  - apply N.eqb_neq. lia.
  - apply N.eqb_neq. lia.
  - apply N.eqb_neq. lia.
Qed.

Lemma all_decimal_all_digit (s : string) :
  PyStr.all PyStr.isdecimal_char s = true -> PyStr.all PyStr.isdigit_char s = true.
Proof.
  induction s as [| c rest IH]; simpl; [reflexivity |].
  intros H. apply andb_true_iff in H. destruct H as [Hc Hrest].
  rewrite (decimal_is_digit_char _ Hc), (IH Hrest). reflexivity.
Qed.

Lemma rstrip_by_keeps (p : ascii -> bool) (s : string) :
  PyStr.all (fun c => negb (p c)) s = true -> PyStr.rstrip_by p s = s.
Proof.
  induction s as [| c rest IH]; simpl; [reflexivity |].
  intros H. apply andb_true_iff in H. destruct H as [Hc Hrest].
  rewrite (IH Hrest). apply negb_true_iff in Hc. rewrite Hc.
  destruct rest; reflexivity.
Qed.

Lemma lstrip_by_keeps (p : ascii -> bool) (s : string) :
  PyStr.all (fun c => negb (p c)) s = true -> PyStr.lstrip_by p s = s.
Proof.
  destruct s as [| c rest]; simpl; [reflexivity |].
  intros H. apply andb_true_iff in H. destruct H as [Hc _].
  apply negb_true_iff in Hc. rewrite Hc. reflexivity.
Qed.

(** Nothing is stripped from a string without characters to strip. *)
Lemma strip_by_keeps (p : ascii -> bool) (s : string) :
  PyStr.all (fun c => negb (p c)) s = true ->
  PyStr.rstrip_by p (PyStr.lstrip_by p s) = s.
Proof.
  intros H. rewrite (lstrip_by_keeps p s H). apply rstrip_by_keeps, H.
Qed.

Lemma all_decimal_no_int_space (s : string) :
  PyStr.all PyStr.isdecimal_char s = true ->
  PyStr.all (fun c => negb (PyStr.int_space_char c)) s = true.
Proof.
  induction s as [| c rest IH]; simpl; [reflexivity |].
  intros H. apply andb_true_iff in H. destruct H as [Hc Hrest].
  rewrite (decimal_not_int_space _ Hc), (IH Hrest). reflexivity.
Qed.

Lemma int_digits_decimal (s : string) :
  PyStr.all PyStr.isdecimal_char s = true ->
  forall acc b,
    PyStr.int_digits s acc b =
    match s with
    | "" => if b then Some acc else None
    | String _ _ => Some (decimal_from acc s)
    end.
Proof.
  induction s as [| c rest IH]; intros H acc b; [reflexivity |].
  simpl in H. apply andb_true_iff in H. destruct H as [Hc Hrest].
  simpl. rewrite Hc, (IH Hrest). destruct rest; reflexivity.
Qed.

Lemma count_digits_decimal (s : string) :
  PyStr.all PyStr.isdecimal_char s = true ->
  PyStr.count_digits s = N.of_nat (String.length s).
Proof.
  induction s as [| c rest IH]; [reflexivity |].
  intros H. simpl in H. apply andb_true_iff in H. destruct H as [Hc Hrest].
  cbn [PyStr.count_digits String.length]. rewrite Hc, (IH Hrest). lia.
Qed.

(** A literal of decimal digits within the limit is the integer they
    write. *)
Lemma int_literal_decimal (ds : string) :
  decimal_digits ds -> within_digit_limit ds ->
  PyStr.int_literal ds = Some (decimal_value ds).
Proof.
  intros [Hne Hall] Hlimit. unfold PyStr.int_literal.
  rewrite (count_digits_decimal ds Hall).
  apply N.leb_le in Hlimit. rewrite Hlimit.
  rewrite (int_digits_decimal ds Hall). destruct ds; [contradiction | reflexivity].
Qed.

(** [int] reads an unsigned or singly signed decimal string within the
    digit limit as expected. *)
Lemma int_signed_decimal (ds : string) :
  decimal_digits ds ->
  within_digit_limit ds ->
  PyStr.int ds = Some (decimal_value ds)
  /\ PyStr.int (String "+" ds) = Some (decimal_value ds)
  /\ PyStr.int (String "-" ds) = Some (- decimal_value ds)%Z.
Proof.
  intros Hds Hlimit. assert (Hd := int_literal_decimal ds Hds Hlimit).
  destruct Hds as [Hne Hall]. destruct ds as [| c rest]; [contradiction |].
  assert (Hc : PyStr.isdecimal_char c = true).
  { simpl in Hall. apply andb_true_iff in Hall. tauto. }
  assert (Hs := strip_by_keeps _ _ (all_decimal_no_int_space _ Hall)).
  assert (Hstrip : forall sign, PyStr.int_space_char sign = false ->
            PyStr.rstrip_by PyStr.int_space_char
              (PyStr.lstrip_by PyStr.int_space_char (String sign (String c rest)))
            = String sign (String c rest)).
  { intros sign Hsign. apply strip_by_keeps.
    cbn [PyStr.all]. rewrite Hsign. cbn [negb andb].
    apply (all_decimal_no_int_space _ Hall). }
  unfold PyStr.int. repeat split.
  - rewrite Hs.
    assert (Hm := decimal_not_minus _ Hc). assert (Hp := decimal_not_plus _ Hc).
    clear - Hd Hm Hp.
    destruct c as [[] [] [] [] [] [] [] []]; try exact Hd; discriminate.
  - rewrite Hstrip by reflexivity. exact Hd.
  - rewrite Hstrip by reflexivity. rewrite Hd. reflexivity.
Qed.

(** ** [TextUtil.is_digit] *)

(** Decimal digits, bare or behind a single sign, are accepted. *)
Lemma is_digit_signed_decimal (ds : string) :
  decimal_digits ds ->
  TextUtil.is_digit ds = true
  /\ TextUtil.is_digit (String "+" ds) = true
  /\ TextUtil.is_digit (String "-" ds) = true.
Proof.
  intros [Hne Hall]. destruct ds as [| c rest]; [contradiction |].
  assert (Hc : PyStr.isdecimal_char c = true).
  { simpl in Hall. apply andb_true_iff in Hall. tauto. }
  assert (Hm := decimal_not_minus _ Hc). assert (Hp := decimal_not_plus _ Hc).
  assert (Hdig := all_decimal_all_digit _ Hall).
  unfold TextUtil.is_digit, PyStr.lstrip.
  repeat split; cbn [PyStr.slice_to PyStr.lstrip_by PyStr.mem String.eqb Ascii.eqb Bool.eqb orb];
    rewrite ?Hm, ?Hp; cbn [orb andb negb PyStr.lstrip_by PyStr.mem PyStr.isdigit];
    rewrite ?Hm, ?Hp; cbn [orb andb negb]; try exact Hdig.
  all: destruct rest; cbn; rewrite ?Hm, ?Hp; cbn; exact Hdig.
Qed.

Lemma lstrip_repeat (c : ascii) (n : nat) (rest : string) :
  not_headed_by c rest = true ->
  PyStr.lstrip (String c "") (repeat_char c n ++ rest)%string = rest.
Proof.
  intros Hrest. unfold PyStr.lstrip. induction n as [| n IH]; simpl.
  - destruct rest as [| d rest']; [reflexivity |]. simpl in *.
    apply negb_true_iff in Hrest. rewrite Hrest. reflexivity.
  - rewrite Ascii.eqb_refl. exact IH.
Qed.

Lemma lstrip_decompose (c : ascii) (s : string) :
  exists n,
    s = (repeat_char c n ++ PyStr.lstrip (String c "") s)%string
    /\ not_headed_by c (PyStr.lstrip (String c "") s) = true.
Proof.
  unfold PyStr.lstrip. induction s as [| d rest IH].
  - exists 0. split; reflexivity.
  - simpl. destruct (Ascii.eqb_spec d c) as [-> | Hne]; simpl.
    + destruct IH as (n & Hs & Hhead). exists (S n). split; [| exact Hhead].
      simpl. f_equal. exact Hs.
    + exists 0. split; [reflexivity |]. simpl.
      apply negb_true_iff. apply Ascii.eqb_neq. exact Hne.
Qed.

Lemma isdigit_head (ds : string) :
  PyStr.isdigit ds = true ->
  exists c rest, ds = String c rest
                 /\ Ascii.eqb c "-" = false /\ Ascii.eqb c "+" = false.
Proof.
  destruct ds as [| c rest]; [discriminate |]. simpl.
  intros H. apply andb_true_iff in H. destruct H as [Hc _].
  exists c, rest. repeat split.
  - destruct (Ascii.eqb_spec c "-") as [-> | _]; [discriminate Hc | reflexivity].
  - destruct (Ascii.eqb_spec c "+") as [-> | _]; [discriminate Hc | reflexivity].
Qed.

(** What the code accepts: any number of '-', then any number of '+', then
    one or more digits, except a single '-' followed by '+'. *)
Lemma is_digit_accepts (s : string) :
  TextUtil.is_digit s = true <->
  exists m p ds,
    s = (repeat_char "-" m ++ repeat_char "+" p ++ ds)%string
    /\ PyStr.isdigit ds = true
    /\ (m = 1 -> p = 0).
Proof.
  unfold TextUtil.is_digit. split.
  - intros H. apply andb_true_iff in H. destruct H as [H Hdig].
    apply andb_true_iff in H. destruct H as [_ Hguard].
    destruct (lstrip_decompose "-" s) as (m & Hs & _).
    destruct (lstrip_decompose "+" (PyStr.lstrip "-" s)) as (p & Hr & _).
    exists m, p, (PyStr.lstrip "+" (PyStr.lstrip "-" s)).
    split; [rewrite <- Hr; exact Hs |]. split; [exact Hdig |].
    intros ->. destruct p as [| p]; [reflexivity |].
    rewrite Hs, Hr in Hguard. discriminate Hguard.
  - intros (m & p & ds & -> & Hdig & Hmp).
    destruct (isdigit_head ds Hdig) as (c & rest & -> & Hm & Hp).
    assert (H1 : PyStr.lstrip "-" (repeat_char "-" m ++ repeat_char "+" p ++ String c rest)%string
                 = (repeat_char "+" p ++ String c rest)%string).
    { apply lstrip_repeat. destruct p; simpl; [rewrite Hm |]; reflexivity. }
    assert (H2 : PyStr.lstrip "+" (repeat_char "+" p ++ String c rest)%string = String c rest).
    { apply lstrip_repeat. simpl. rewrite Hp. reflexivity. }
    rewrite H1, H2, Hdig, andb_true_r.
    destruct m as [| [| m]].
    + destruct p as [| [| p]]; simpl; rewrite ?Hm, ?Hp; reflexivity.
    + rewrite (Hmp eq_refl). simpl. rewrite Hp. reflexivity.
    + reflexivity.
Qed.

(** The worked examples on which the code and the contract agree. *)
Lemma is_digit_examples :
  map TextUtil.is_digit ["42"; "-7"; "+7"; "+-7"; "-+7"; ""; "12-3"]
  = [true; true; true; false; false; false; false].
Proof. reflexivity. Qed.

(** C1. The contract wants [is_digit "--7"] to be false, since at most one
    leading sign may be dropped; the code drops every leading '-' and then
    every leading '+', so it accepts "--7", which [int] then refuses. *)
Theorem is_digit_accepts_repeated_sign :
  TextUtil.is_digit "--7" = true /\ PyStr.int "--7" = None.
Proof. split; reflexivity. Qed.

(** C10. [is_digit] is total: every string gets a boolean; the empty
    string is refused, a string of one character is accepted exactly when
    that character is a digit, and the two-character slice of a shorter
    string is the string itself. *)
Theorem is_digit_total :
  (forall s, exists b, TextUtil.is_digit s = b)
  /\ TextUtil.is_digit "" = false
  /\ (forall c, TextUtil.is_digit (String c "") = PyStr.isdigit_char c)
  /\ PyStr.slice_to 2 "" = ""
  /\ (forall c, PyStr.slice_to 2 (String c "") = String c "").
Proof.
  repeat split; try reflexivity.
  - intros s. exists (TextUtil.is_digit s). reflexivity.
  - intros c. unfold TextUtil.is_digit, PyStr.lstrip.
    cbn [PyStr.slice_to String.eqb PyStr.lstrip_by PyStr.mem].
    destruct (Ascii.eqb_spec c "-") as [-> | Hm]; [reflexivity |].
    destruct (Ascii.eqb_spec c "+") as [-> | Hp]; [reflexivity |].
    cbn [orb PyStr.lstrip_by PyStr.mem].
    destruct (Ascii.eqb_spec c "+") as [E | _]; [contradiction |].
    cbn [orb andb negb PyStr.isdigit PyStr.all]. apply andb_true_r.
Qed.

(** ** [get_cell_text] *)

Lemma get_text_of_text (s : string) : Soup.get_text "" false (Text s) = s.
Proof. reflexivity. Qed.

Lemma get_text_of_td (s : string) : Soup.get_text "" false (td s) = s.
Proof. reflexivity. Qed.

(** A text the classifier refuses is returned stripped. *)
Lemma get_cell_text_str (cell : node) :
  TextUtil.is_digit (Soup.get_text "" false cell) = false ->
  get_cell_text cell = Ok (VStr (PyStr.strip (Soup.get_text "" false cell))).
Proof. intros H. unfold get_cell_text. rewrite H. reflexivity. Qed.

(** Decimal digits within the digit limit, bare or behind a single sign,
    become that integer. *)
Lemma get_cell_text_int (cell : node) (ds : string) :
  decimal_digits ds ->
  within_digit_limit ds ->
  (Soup.get_text "" false cell = ds ->
   get_cell_text cell = Ok (VInt (decimal_value ds)))
  /\ (Soup.get_text "" false cell = String "+" ds ->
      get_cell_text cell = Ok (VInt (decimal_value ds)))
  /\ (Soup.get_text "" false cell = String "-" ds ->
      get_cell_text cell = Ok (VInt (- decimal_value ds))).
Proof.
  intros Hds Hlimit.
  destruct (is_digit_signed_decimal ds Hds) as (D0 & D1 & D2).
  destruct (int_signed_decimal ds Hds Hlimit) as (I0 & I1 & I2).
  unfold get_cell_text.
  repeat split; intros ->; cbv zeta.
  - rewrite D0, I0. reflexivity.
  - rewrite D1, I1. reflexivity.
  - rewrite D2, I2. reflexivity.
Qed.

(** The relation and the function describe the same outcomes. *)
Lemma get_cell_text_eval_iff (cell : node) (r : result value) :
  get_cell_text_eval cell r <-> get_cell_text cell = r.
Proof.
  unfold get_cell_text. split.
  - intros H. destruct H as [i Hd Hi | Hd Hi | Hd]; rewrite Hd; try rewrite Hi; reflexivity.
  - intros <-.
    destruct (TextUtil.is_digit (Soup.get_text "" false cell)) eqn:Hd.
    + destruct (PyStr.int (Soup.get_text "" false cell)) as [i |] eqn:Hi.
      * apply eval_int; assumption.
      * apply eval_int_error; assumption.
    + apply eval_str. exact Hd.
Qed.

(** C2. The resolver is meant to return a value for every cell text; on
    the cell text "--7" the classifier answers true and [int] raises
    [ValueError], so no value is returned. *)
Theorem get_cell_text_raises_on_repeated_sign :
  Soup.get_text "" false (td "--7") = "--7"
  /\ TextUtil.is_digit "--7" = true
  /\ get_cell_text (td "--7") = Raise ValueError.
Proof. repeat split; reflexivity. Qed.

(** C8. Resolving a cell is deterministic: two resolutions of the same
    cell end in the same outcome, the one the function computes. *)
Theorem get_cell_text_deterministic (cell : node) (r1 r2 : result value) :
  get_cell_text_eval cell r1 ->
  get_cell_text_eval cell r2 ->
  r1 = r2 /\ get_cell_text cell = r1.
Proof.
  intros H1 H2. split.
  - destruct H1 as [i Hd Hi | Hd Hi | Hd];
      destruct H2 as [j Hd' Hj | Hd' Hj | Hd']; try congruence.
  - apply get_cell_text_eval_iff. exact H1.
Qed.

Lemma get_cell_text_deterministic_witness :
  Ok (VInt 1) = Ok (VInt 1) /\ get_cell_text (td "1") = Ok (VInt 1).
Proof.
  apply (get_cell_text_deterministic (td "1") (Ok (VInt 1)) (Ok (VInt 1)));
    apply eval_int; reflexivity.
Defined.

(** ** Dictionaries *)

Section DictFacts.
Context {V : Type}.
Implicit Types (d : Dict.t V) (k l : string) (v : V).

Lemma get_setitem d k v l :
  Dict.get (Dict.setitem d k v) l =
  if String.eqb k l then Some v else Dict.get d l.
Proof.
  induction d as [| [k' v'] rest IH]; simpl.
  - reflexivity.
  - destruct (String.eqb_spec k' k) as [-> | Hk]; simpl.
    + destruct (String.eqb k l); reflexivity.
    + rewrite IH. destruct (String.eqb_spec k' l) as [-> | Hl]; [| reflexivity].
      destruct (String.eqb_spec k l) as [-> | _]; [contradiction | reflexivity].
Qed.

Lemma get_in_keys d l : Dict.get d l <> None <-> In l (Dict.keys d).
Proof.
  induction d as [| [k' v'] rest IH]; simpl.
  - split; [intros H; contradiction H; reflexivity | intros []].
  - destruct (String.eqb_spec k' l) as [-> | Hl].
    + split; [intros _; left; reflexivity | intros _; discriminate].
    + rewrite IH. split; [intros H; right; exact H | intros [E | H]; [contradiction | exact H]].
Qed.

Lemma keys_setitem_present d k v :
  In k (Dict.keys d) -> Dict.keys (Dict.setitem d k v) = Dict.keys d.
Proof.
  induction d as [| [k' v'] rest IH]; simpl; [intros [] |].
  intros Hin. destruct (String.eqb_spec k' k) as [-> | Hk]; simpl; [reflexivity |].
  f_equal. apply IH. destruct Hin as [E | H]; [contradiction | exact H].
Qed.

Lemma keys_setitem_absent d k v :
  ~ In k (Dict.keys d) -> Dict.keys (Dict.setitem d k v) = Dict.keys d ++ [k].
Proof.
  induction d as [| [k' v'] rest IH]; simpl; [reflexivity |].
  intros Hin. destruct (String.eqb_spec k' k) as [-> | Hk]; simpl.
  - contradiction Hin. left; reflexivity.
  - f_equal. apply IH. intros H. apply Hin. right; exact H.
Qed.

Lemma get_of_item d l v :
  NoDup (Dict.keys d) -> In (l, v) d -> Dict.get d l = Some v.
Proof.
  induction d as [| [k' v'] rest IH]; simpl; [intros _ [] |].
  intros Hnd Hin. inversion Hnd as [| ? ? Hnotin Hrest]; subst.
  destruct Hin as [E | Hin].
  - inversion E; subst. rewrite String.eqb_refl. reflexivity.
  - destruct (String.eqb_spec k' l) as [-> | _].
    + contradiction Hnotin. apply (in_map fst) in Hin. exact Hin.
    + apply IH; assumption.
Qed.

End DictFacts.

(** ** [distinct] *)

Lemma absent_from_spec (seen : list string) (l : string) :
  absent_from seen l = true <-> ~ In l seen.
Proof.
  unfold absent_from. rewrite negb_true_iff.
  destruct (existsb (String.eqb l) seen) eqn:E.
  - apply existsb_exists in E. destruct E as (x & Hx & Heq).
    apply String.eqb_eq in Heq. subst x. split; [discriminate | intros H; contradiction].
  - split; [| reflexivity]. intros _ Hin.
    assert (existsb (String.eqb l) seen = true) as E'.
    { apply existsb_exists. exists l. split; [exact Hin | apply String.eqb_refl]. }
    congruence.
Qed.

Lemma filter_twice {A : Type} (p q : A -> bool) (l : list A) :
  filter p (filter q l) = filter (fun x => q x && p x) l.
Proof.
  induction l as [| x rest IH]; simpl; [reflexivity |].
  destruct (q x); simpl; [destruct (p x) |]; rewrite IH; reflexivity.
Qed.

Lemma in_distinct (labels : list string) (l : string) :
  In l (distinct labels) <-> In l labels.
Proof.
  induction labels as [| x rest IH]; simpl; [tauto |].
  rewrite filter_In, IH, negb_true_iff.
  destruct (String.eqb_spec l x) as [-> | Hne]; split; intros H.
  - left; reflexivity.
  - left; reflexivity.
  - destruct H as [E | [H _]]; [left; exact E | right; exact H].
  - destruct H as [E | H]; [left; exact E | right; split; [exact H | reflexivity]].
Qed.

Lemma NoDup_filter {A : Type} (p : A -> bool) (l : list A) :
  NoDup l -> NoDup (filter p l).
Proof.
  induction 1 as [| x rest Hnotin Hnd IH]; simpl; [constructor |].
  destruct (p x); [| exact IH].
  constructor; [| exact IH]. intros H. apply filter_In in H. tauto.
Qed.

Lemma NoDup_distinct (labels : list string) : NoDup (distinct labels).
Proof.
  induction labels as [| x rest IH]; simpl; constructor.
  - intros H. apply filter_In in H. destruct H as [_ H].
    rewrite String.eqb_refl in H. discriminate.
  - apply NoDup_filter, IH.
Qed.

(** [fromkeys] keeps one key per label, at the label's first place. *)
Lemma keys_fromkeys_from {V : Type} (v : V) (labels : list string) :
  forall d : Dict.t V,
    Dict.keys (fold_left (fun d k => Dict.setitem d k v) labels d)
    = Dict.keys d ++ filter (absent_from (Dict.keys d)) (distinct labels).
Proof.
  induction labels as [| x rest IH]; intros d; simpl.
  - symmetry. apply app_nil_r.
  - rewrite IH.
    destruct (absent_from (Dict.keys d) x) eqn:Hx.
    + apply absent_from_spec in Hx.
      rewrite keys_setitem_absent by exact Hx.
      rewrite <- app_assoc. simpl. do 2 f_equal.
      rewrite filter_twice. apply filter_ext. intros y.
      unfold absent_from. rewrite existsb_app. simpl.
      rewrite orb_false_r, negb_orb. apply andb_comm.
    + assert (Hin : In x (Dict.keys d)).
      { destruct (in_dec string_dec x (Dict.keys d)) as [H | H]; [exact H |].
        apply absent_from_spec in H. congruence. }
      rewrite keys_setitem_present by exact Hin. f_equal.
      rewrite filter_twice. apply filter_ext. intros y.
      destruct (String.eqb_spec y x) as [-> | Hne]; simpl; [| reflexivity].
      rewrite Hx. reflexivity.
Qed.

Lemma keys_fromkeys {V : Type} (v : V) (labels : list string) :
  Dict.keys (Dict.fromkeys labels v) = distinct labels.
Proof.
  unfold Dict.fromkeys. rewrite keys_fromkeys_from. simpl.
  rewrite <- (filter_ext (fun _ => true)); [| reflexivity].
  induction (distinct labels) as [| x rest IH]; simpl; [reflexivity | f_equal; exact IH].
Qed.

Lemma get_fromkeys_from {V : Type} (v : V) (labels : list string) (l : string) :
  forall d : Dict.t V,
    Dict.get (fold_left (fun d k => Dict.setitem d k v) labels d) l
    = if existsb (String.eqb l) labels then Some v else Dict.get d l.
Proof.
  induction labels as [| x rest IH]; intros d; simpl; [reflexivity |].
  rewrite IH, get_setitem, (String.eqb_sym l x).
  destruct (existsb (String.eqb l) rest), (String.eqb x l); reflexivity.
Qed.

Lemma get_fromkeys {V : Type} (v : V) (labels : list string) (l : string) :
  In l labels -> Dict.get (Dict.fromkeys labels v) l = Some v.
Proof.
  intros Hin. unfold Dict.fromkeys. rewrite get_fromkeys_from.
  replace (existsb (String.eqb l) labels) with true; [reflexivity |].
  symmetry. apply existsb_exists. exists l. split; [exact Hin | apply String.eqb_refl].
Qed.

(** ** The loops of [get_pokedex_data_dict] *)

Lemma extends_nothing (d : Dict.t (list value)) (added : string -> list value) :
  (forall l, added l = []) -> extends d d added.
Proof.
  intros Hnil. split; [reflexivity |]. intros l. rewrite Hnil.
  destruct (Dict.get d l); simpl; [rewrite app_nil_r |]; reflexivity.
Qed.

Lemma extends_trans (d d1 d2 : Dict.t (list value)) (a1 a2 a : string -> list value) :
  extends d d1 a1 -> extends d1 d2 a2 ->
  (forall l, a l = a1 l ++ a2 l) ->
  extends d d2 a.
Proof.
  intros [K1 G1] [K2 G2] Ha. split; [congruence |].
  intros l. rewrite G2, G1, Ha.
  destruct (Dict.get d l); simpl; [rewrite app_assoc |]; reflexivity.
Qed.

Lemma add_cell_ok (d : Dict.t (list value)) (cell : node) (l : string) (v : value) :
  get_cell_text cell = Ok v ->
  In l (Dict.keys d) ->
  exists d', Pokedex.add_cell d (cell, l) = Ok d'
             /\ extends d d' (fun l' => if String.eqb l l' then [v] else []).
Proof.
  intros Hv Hin. unfold Pokedex.add_cell, Dict.getitem. rewrite Hv. simpl.
  destruct (Dict.get d l) as [vs |] eqn:Hget.
  - simpl. eexists. split; [reflexivity |]. split.
    + apply keys_setitem_present. exact Hin.
    + intros l'. rewrite get_setitem.
      destruct (String.eqb_spec l l') as [<- | Hne].
      * rewrite Hget. reflexivity.
      * destruct (Dict.get d l'); simpl; [rewrite app_nil_r |]; reflexivity.
  - apply get_in_keys in Hin. contradiction.
Qed.

Lemma add_cell_ok_inv (d d' : Dict.t (list value)) (cell : node) (l : string) :
  Pokedex.add_cell d (cell, l) = Ok d' -> resolves cell.
Proof.
  unfold Pokedex.add_cell, resolves.
  destruct (get_cell_text cell) as [v | e]; simpl; [| discriminate].
  intros _. exists v. reflexivity.
Qed.

Lemma resolved_of_ok (cell : node) (v : value) :
  get_cell_text cell = Ok v -> resolved cell = [v].
Proof. unfold resolved. intros ->. reflexivity. Qed.

(** The inner loop, when every cell resolves. *)
Lemma add_cells_ok (pairs : list (node * string)) :
  forall d : Dict.t (list value),
    Forall (fun pair => resolves (fst pair)) pairs ->
    (forall pair, In pair pairs -> In (snd pair) (Dict.keys d)) ->
    exists d', for_each Pokedex.add_cell pairs d = Ok d'
               /\ extends d d' (fun l => paired_values l pairs).
Proof.
  induction pairs as [| [cell l] rest IH]; intros d Hres Hkeys.
  - exists d. split; [reflexivity |]. apply extends_nothing. reflexivity.
  - inversion Hres as [| ? ? [v Hv] Hrest]; subst. cbn [fst] in Hv.
    destruct (add_cell_ok d cell l v Hv) as (d1 & Hstep & Hext1).
    { apply (Hkeys (cell, l)). left; reflexivity. }
    destruct (IH d1 Hrest) as (d2 & Hloop & Hext2).
    { intros pair Hin. destruct Hext1 as [-> _]. apply Hkeys. right; exact Hin. }
    exists d2. split.
    + cbn [for_each]. rewrite Hstep. exact Hloop.
    + eapply extends_trans; [exact Hext1 | exact Hext2 |].
      intros l'. unfold paired_values. cbn [flat_map fst snd].
      rewrite (resolved_of_ok _ _ Hv).
      destruct (String.eqb l l'); reflexivity.
Qed.

(** The inner loop ends normally only if every cell resolved. *)
Lemma add_cells_ok_inv (pairs : list (node * string)) :
  forall d d' : Dict.t (list value),
    for_each Pokedex.add_cell pairs d = Ok d' ->
    Forall (fun pair => resolves (fst pair)) pairs.
Proof.
  induction pairs as [| [cell l] rest IH]; intros d d' H; [constructor |].
  cbn [for_each] in H.
  destruct (Pokedex.add_cell d (cell, l)) as [d1 | e] eqn:Hstep; [| discriminate H].
  constructor.
  - exact (add_cell_ok_inv _ _ _ _ Hstep).
  - exact (IH _ _ H).
Qed.

Lemma pairs_of_labels (column_labels : list string) (row : node) (pair : node * string) :
  In pair (pairs_of column_labels row) -> In (snd pair) column_labels.
Proof.
  destruct pair as [cell l]. intros H. apply in_combine_r in H. exact H.
Qed.

Lemma add_row_ok (column_labels : list string) (d : Dict.t (list value)) (row : node) :
  row_resolves column_labels row ->
  (forall l, In l column_labels -> In l (Dict.keys d)) ->
  exists d', Pokedex.add_row column_labels d row = Ok d'
             /\ extends d d' (fun l => paired_values l (pairs_of column_labels row)).
Proof.
  intros Hres Hkeys. apply add_cells_ok; [exact Hres |].
  intros pair Hin. apply Hkeys. exact (pairs_of_labels _ _ _ Hin).
Qed.

Lemma add_row_ok_inv (column_labels : list string) (d d' : Dict.t (list value)) (row : node) :
  Pokedex.add_row column_labels d row = Ok d' -> row_resolves column_labels row.
Proof. apply add_cells_ok_inv. Qed.

(** The outer loop, when every paired cell of every row resolves. *)
Lemma add_rows_ok (column_labels : list string) (rows : list node) :
  forall d : Dict.t (list value),
    Forall (row_resolves column_labels) rows ->
    (forall l, In l column_labels -> In l (Dict.keys d)) ->
    exists d', for_each (Pokedex.add_row column_labels) rows d = Ok d'
               /\ extends d d' (column column_labels rows).
Proof.
  induction rows as [| row rest IH]; intros d Hres Hkeys.
  - exists d. split; [reflexivity |]. apply extends_nothing. reflexivity.
  - inversion Hres as [| ? ? Hrow Hrest]; subst.
    destruct (add_row_ok column_labels d row Hrow Hkeys) as (d1 & Hstep & Hext1).
    destruct (IH d1 Hrest) as (d2 & Hloop & Hext2).
    { intros l Hin. destruct Hext1 as [-> _]. apply Hkeys. exact Hin. }
    exists d2. split.
    + cbn [for_each]. rewrite Hstep. exact Hloop.
    + eapply extends_trans; [exact Hext1 | exact Hext2 | reflexivity].
Qed.

Lemma add_rows_ok_inv (column_labels : list string) (rows : list node) :
  forall d d' : Dict.t (list value),
    for_each (Pokedex.add_row column_labels) rows d = Ok d' ->
    Forall (row_resolves column_labels) rows.
Proof.
  induction rows as [| row rest IH]; intros d d' H; [constructor |].
  cbn [for_each] in H.
  destruct (Pokedex.add_row column_labels d row) as [d1 | e] eqn:Hstep; [| discriminate H].
  constructor.
  - exact (add_row_ok_inv _ _ _ _ Hstep).
  - exact (IH _ _ H).
Qed.

(** The table, whenever one is returned. *)
Lemma data_dict_ok (column_labels : list string) (rows : list node) (d : Dict.t (list value)) :
  Pokedex.get_pokedex_data_dict column_labels rows = Ok d ->
  Dict.keys d = distinct column_labels
  /\ forall l, In l column_labels -> Dict.get d l = Some (column column_labels rows l).
Proof.
  intros H. unfold Pokedex.get_pokedex_data_dict in H.
  assert (Hres := add_rows_ok_inv _ _ _ _ H).
  destruct (add_rows_ok column_labels rows (Dict.fromkeys column_labels []) Hres)
    as (d' & Hrun & Hkeys & Hget).
  { intros l Hin. rewrite keys_fromkeys. apply in_distinct. exact Hin. }
  rewrite Hrun in H. inversion H; subst d'. split.
  - rewrite Hkeys. apply keys_fromkeys.
  - intros l Hin. rewrite Hget, (get_fromkeys _ _ _ Hin). reflexivity.
Qed.

(** A table is returned when every paired cell resolves. *)
Lemma data_dict_returns (column_labels : list string) (rows : list node) :
  Forall (row_resolves column_labels) rows ->
  exists d, Pokedex.get_pokedex_data_dict column_labels rows = Ok d.
Proof.
  intros Hres.
  destruct (add_rows_ok column_labels rows (Dict.fromkeys column_labels []) Hres)
    as (d' & Hrun & _).
  { intros l Hin. rewrite keys_fromkeys. apply in_distinct. exact Hin. }
  exists d'. exact Hrun.
Qed.

(** ** Pairing cells with labels *)


Lemma labels_of_combine {A B : Type} (cells : list A) (labels : list B) :
  map snd (combine cells labels) = firstn (length cells) labels.
Proof.
  revert labels. induction cells as [| c cells IH]; intros [| l labels]; simpl;
    try reflexivity.
  f_equal. apply IH.
Qed.

Lemma paired_values_unpaired (l : string) (pairs : list (node * string)) :
  ~ In l (map snd pairs) -> paired_values l pairs = [].
Proof.
  induction pairs as [| [cell l'] rest IH]; simpl; [reflexivity |].
  intros Hnot. unfold paired_values in *. cbn [flat_map fst snd].
  destruct (String.eqb_spec l' l) as [-> | _].
  - contradiction Hnot. left; reflexivity.
  - apply IH. intros H. apply Hnot. right; exact H.
Qed.

Lemma paired_values_length (l : string) (pairs : list (node * string)) :
  Forall (fun pair => resolves (fst pair)) pairs ->
  length (paired_values l pairs)
  = length (filter (fun l' => String.eqb l' l) (map snd pairs)).
Proof.
  induction 1 as [| [cell l'] rest [v Hv] Hrest IH]; [reflexivity |].
  unfold paired_values in *. cbn [flat_map map filter fst snd] in *.
  destruct (String.eqb l' l).
  - rewrite (resolved_of_ok _ _ Hv). simpl. f_equal. exact IH.
  - exact IH.
Qed.

Lemma no_occurrence (labels : list string) (l : string) :
  ~ In l labels -> filter (fun l' => String.eqb l' l) labels = [].
Proof.
  induction labels as [| x rest IH]; simpl; [reflexivity |].
  intros Hnot. destruct (String.eqb_spec x l) as [-> | _].
  - contradiction Hnot. left; reflexivity.
  - apply IH. intros H. apply Hnot. right; exact H.
Qed.

Lemma one_occurrence (labels : list string) (l : string) :
  NoDup labels -> In l labels ->
  length (filter (fun l' => String.eqb l' l) labels) = 1.
Proof.
  induction 1 as [| x rest Hnotin Hnd IH]; simpl; [intros [] |].
  intros Hin. destruct (String.eqb_spec x l) as [-> | Hne].
  - rewrite (no_occurrence _ _ Hnotin). reflexivity.
  - apply IH. destruct Hin as [E | H]; [contradiction | exact H].
Qed.

(** ** [Pokedex.get_pokedex_data_dict] *)

(** C4. The worked example: labels Name and Type, rows Bulbasaur/Grass and
    1/Fire.  The cell "1" becomes the integer 1 whatever its neighbours
    are. *)
Theorem data_dict_worked_example :
  Pokedex.get_pokedex_data_dict
    ["Name"; "Type"] [tr ["Bulbasaur"; "Grass"]; tr ["1"; "Fire"]]
  = Ok [("Name", [VStr "Bulbasaur"; VInt 1]); ("Type", [VStr "Grass"; VStr "Fire"])]
  /\ get_cell_text (td "1") = Ok (VInt 1).
Proof. split; reflexivity. Qed.



(** C9. The keys of the returned table are the distinct labels, each at its
    first place, whatever the rows hold; a repeated label is one key, and
    the sequence of a key gathers the values of every position paired with
    that label, row after row.  A table is returned as soon as every paired
    cell resolves. *)
Theorem data_dict_keys_are_distinct_labels
        (column_labels : list string) (content_rows : list node) :
  (Forall (row_resolves column_labels) content_rows ->
   exists d, Pokedex.get_pokedex_data_dict column_labels content_rows = Ok d)
  /\ forall d,
      Pokedex.get_pokedex_data_dict column_labels content_rows = Ok d ->
      Dict.keys d = distinct column_labels
      /\ NoDup (Dict.keys d)
      /\ (forall l, In l (Dict.keys d) <-> In l column_labels)
      /\ (forall l, In l column_labels ->
                    Dict.getitem d l = Ok (column column_labels content_rows l)).
Proof.
  split; [apply data_dict_returns |].
  intros d Hd. destruct (data_dict_ok _ _ _ Hd) as [K G].
  repeat split.
  - exact K.
  - rewrite K. apply NoDup_distinct.
  - rewrite K. apply in_distinct.
  - rewrite K. apply in_distinct.
  - intros l Hin. unfold Dict.getitem. rewrite (G l Hin). reflexivity.
Qed.

Lemma data_dict_keys_are_distinct_labels_witness :
  exists d,
    Pokedex.get_pokedex_data_dict ["A"; "B"; "A"] [tr ["1"; "x"; "2"]; tr ["y"]] = Ok d
    /\ Dict.keys d = ["A"; "B"]
    /\ Dict.getitem d "A" = Ok [VInt 1; VInt 2; VStr "y"]
    /\ Dict.getitem d "B" = Ok [VStr "x"].
Proof.
  destruct (data_dict_keys_are_distinct_labels
              ["A"; "B"; "A"] [tr ["1"; "x"; "2"]; tr ["y"]]) as [Hret Hspec].
  destruct Hret as [d Hd].
  - repeat constructor; eexists; reflexivity.
  - exists d. destruct (Hspec d Hd) as (K & _ & _ & G).
    split; [exact Hd |]. split; [exact K |]. split.
    + apply G. simpl. tauto.
    + apply G. simpl. tauto.
Defined.

Lemma column_length (column_labels : list string) (rows : list node) (l : string) (k : nat) :
  NoDup column_labels ->
  In l column_labels ->
  length column_labels <= k ->
  (forall row, In row rows -> length (Soup.find_all "td" row) = k) ->
  Forall (row_resolves column_labels) rows ->
  length (column column_labels rows l) = length rows.
Proof.
  intros Hnd Hin Hk Hcells Hres. unfold column.
  induction Hres as [| row rest Hrow Hrest IH]; [reflexivity |].
  cbn [flat_map]. rewrite length_app, IH.
  - rewrite (paired_values_length l _ Hrow). unfold pairs_of.
    rewrite labels_of_combine, firstn_all2.
    + rewrite (one_occurrence _ _ Hnd Hin). reflexivity.
    + rewrite (Hcells row); [exact Hk | left; reflexivity].
  - intros row' H. apply Hcells. right; exact H.
Qed.

(** C3, as the code has it.  When the labels are pairwise distinct and
    every row has the same number of cells, at least as many as there are
    labels, every column of the returned table has one value per row. *)
Theorem columns_have_row_count
        (column_labels : list string) (content_rows : list node) (k : nat)
        (d : Dict.t (list value)) :
  NoDup column_labels ->
  length column_labels <= k ->
  (forall row, In row content_rows -> length (Soup.find_all "td" row) = k) ->
  Pokedex.get_pokedex_data_dict column_labels content_rows = Ok d ->
  forall l vs, In (l, vs) d -> length vs = length content_rows.
Proof.
  intros Hnd Hk Hcells Hd l vs Hitem.
  destruct (data_dict_ok _ _ _ Hd) as [K G].
  assert (Hin : In l column_labels).
  { apply in_distinct. rewrite <- K. apply (in_map fst) in Hitem. exact Hitem. }
  assert (Hget : Dict.get d l = Some vs).
  { apply get_of_item; [rewrite K; apply NoDup_distinct | exact Hitem]. }
  rewrite (G l Hin) in Hget. inversion Hget; subst vs.
  apply (column_length column_labels content_rows l k); try assumption.
  unfold Pokedex.get_pokedex_data_dict in Hd.
  exact (add_rows_ok_inv _ _ _ _ Hd).
Qed.

Lemma columns_have_row_count_witness :
  Pokedex.get_pokedex_data_dict ["A"; "B"] [tr ["1"; "x"]; tr ["2"; "y"]]
  = Ok [("A", [VInt 1; VInt 2]); ("B", [VStr "x"; VStr "y"])]
  /\ length [VStr "x"; VStr "y"] = length [tr ["1"; "x"]; tr ["2"; "y"]].
Proof.
  split; [reflexivity |].
  apply (columns_have_row_count
           ["A"; "B"] [tr ["1"; "x"]; tr ["2"; "y"]] 2
           [("A", [VInt 1; VInt 2]); ("B", [VStr "x"; VStr "y"])])
    with (l := "B").
  - repeat constructor; simpl; intuition discriminate.
  - simpl. lia.
  - intros row [<- | [<- | []]]; reflexivity.
  - reflexivity.
  - right; left; reflexivity.
Defined.

(** C3, as stated, fails: with labels A and B and one row of one cell,
    every row has the same number of cells, yet column B is empty. *)
Lemma uneven_columns_counterexample :
  ~ (forall (column_labels : list string) (content_rows : list node) (k : nat)
            (d : Dict.t (list value)),
        (forall row, In row content_rows -> length (Soup.find_all "td" row) = k) ->
        Pokedex.get_pokedex_data_dict column_labels content_rows = Ok d ->
        forall l vs, In (l, vs) d -> length vs = length content_rows).
Proof.
  intros H.
  assert (E : length (@nil value) = length [tr ["x"]]).
  { apply (H ["A"; "B"] [tr ["x"]] 1 [("A", [VStr "x"]); ("B", [])]) with (l := "B").
    - intros row [<- | []]. reflexivity.
    - reflexivity.
    - right; left; reflexivity. }
  discriminate E.
Qed.

(** ** Searching the document *)

Lemma filter_below_tag (name m : string) (contents : list node) :
  filter (Soup.is_tag name) (Soup.below (Tag m contents))
  = flat_map (fun c => (if Soup.is_tag name c then [c] else [])
                       ++ filter (Soup.is_tag name) (Soup.below c))
             contents.
Proof.
  cbn [Soup.below].
  induction contents as [| c rest IH]; [reflexivity |].
  cbn [flat_map]. rewrite filter_app. cbn [filter]. rewrite IH.
  destruct (Soup.is_tag name c); rewrite <- ?app_assoc; reflexivity.
Qed.

(** No tag of the name is found below an element exactly when none lies
    below it. *)
Lemma filter_below_nil_iff (name : string) (n : node) :
  filter (Soup.is_tag name) (Soup.below n) = [] <-> contains_tag name n = false.
Proof.
  induction n as [s | class s | m contents IH] using node_ind.
  - split; reflexivity.
  - split; reflexivity.
  - rewrite filter_below_tag. cbn [contains_tag].
    induction IH as [| c rest Hc Hrest IHrest]; [split; reflexivity |].
    cbn [flat_map existsb]. rewrite orb_false_iff, orb_false_iff, <- Hc, <- IHrest.
    destruct (Soup.is_tag name c); cbn [app].
    + split; [discriminate | intros [[E _] _]; discriminate E].
    + split.
      * intros H. apply app_eq_nil in H. tauto.
      * intros [[_ H1] H2]. rewrite H1, H2. reflexivity.
Qed.

Lemma is_tag_settle (name : string) (inside : option string_class) (n : node) :
  Soup.is_tag name (Soup.settle inside n) = Soup.is_tag name n.
Proof. destruct n as [s | class s | m contents]; [destruct inside | |]; reflexivity. Qed.

(** The parser's choice of string classes moves no tag. *)
Lemma contains_tag_settle (name : string) (n : node) :
  forall inside, contains_tag name (Soup.settle inside n) = contains_tag name n.
Proof.
  induction n as [s | class s | m contents IH] using node_ind; intros inside.
  - destruct inside; reflexivity.
  - reflexivity.
  - cbn [Soup.settle contains_tag].
    generalize (Soup.entering m inside) as inside'. intros inside'.
    induction IH as [| c rest Hc Hrest IHrest]; [reflexivity |].
    cbn [map existsb]. rewrite is_tag_settle, Hc, IHrest. reflexivity.
Qed.

(** [find_all] finds nothing exactly when no tag of that name lies below. *)
Lemma find_all_nil_iff (name : string) (n : node) :
  Soup.find_all name n = [] <-> contains_tag name n = false.
Proof.
  unfold Soup.find_all, Soup.descendants.
  rewrite filter_below_nil_iff. rewrite contains_tag_settle. reflexivity.
Qed.

Lemma find_none_iff (name : string) (n : node) :
  Soup.find name n = None <-> contains_tag name n = false.
Proof.
  rewrite <- find_all_nil_iff. unfold Soup.find.
  destruct (Soup.find_all name n); split; intros H; try reflexivity; discriminate H.
Qed.

(** What [find] returns is a tag of the name asked for. *)
Lemma find_some_is_tag (name : string) (n found : node) :
  Soup.find name n = Some found -> Soup.is_tag name found = true.
Proof.
  unfold Soup.find. destruct (Soup.find_all name n) as [| first rest] eqn:E;
    [discriminate |].
  intros H. inversion H; subst first.
  assert (Hin : In found (Soup.find_all name n)) by (rewrite E; left; reflexivity).
  unfold Soup.find_all in Hin. apply filter_In in Hin. tauto.
Qed.

(** C6. Without a header section below the table element, reading the
    labels raises; without a body section, reading the rows raises. *)
Theorem missing_section_raises (self : Pokedex.t) (table : node) :
  Pokedex.pokedex_table self = Some table ->
  (contains_tag "thead" table = false ->
   Pokedex.get_pokedex_column_labels self = Raise AttributeError)
  /\ (contains_tag "tbody" table = false ->
      Pokedex.get_pokedex_content_rows self = Raise AttributeError).
Proof.
  intros Htable.
  unfold Pokedex.get_pokedex_column_labels, Pokedex.get_pokedex_content_rows.
  rewrite Htable. cbn [Pokedex.deref bind].
  split; intros Hnone; apply find_none_iff in Hnone; rewrite Hnone; reflexivity.
Qed.

Lemma missing_section_raises_witness :
  Pokedex.get_pokedex_column_labels
    {| Pokedex.pokedex_table := Some (Tag "table" [Tag "tr" [td "1"]]) |}
  = Raise AttributeError
  /\ Pokedex.get_pokedex_content_rows
       {| Pokedex.pokedex_table := Some (Tag "table" [Tag "tr" [td "1"]]) |}
     = Raise AttributeError.
Proof.
  destruct (missing_section_raises
              {| Pokedex.pokedex_table := Some (Tag "table" [Tag "tr" [td "1"]]) |}
              (Tag "table" [Tag "tr" [td "1"]]) eq_refl) as [Hhead Hbody].
  split; [apply Hhead | apply Hbody]; reflexivity.
Defined.

(** ** Joining and splitting *)

Lemma split_whole (sep : ascii) (s : string) :
  PyStr.mem sep s = false -> PyStr.split sep s = [s].
Proof.
  induction s as [| c rest IH]; simpl; [reflexivity |].
  intros H. apply orb_false_iff in H. destruct H as [Hc Hrest].
  rewrite Ascii.eqb_sym in Hc. rewrite Hc, (IH Hrest). reflexivity.
Qed.

Lemma split_first (sep : ascii) (s rest : string) :
  PyStr.mem sep s = false ->
  PyStr.split sep (s ++ String sep rest) = s :: PyStr.split sep rest.
Proof.
  induction s as [| c s' IH]; simpl.
  - intros _. rewrite Ascii.eqb_refl. reflexivity.
  - intros H. apply orb_false_iff in H. destruct H as [Hc Hs'].
    rewrite Ascii.eqb_sym in Hc. rewrite Hc, (IH Hs'). reflexivity.
Qed.

(** Splitting a joined sequence gives the sequence back, when it is not
    empty and no part holds the separator. *)
Lemma split_join (sep : ascii) (parts : list string) :
  parts <> [] ->
  Forall (fun s => PyStr.mem sep s = false) parts ->
  PyStr.split sep (PyStr.join (String sep "") parts) = parts.
Proof.
  intros Hne Hfree. unfold PyStr.join.
  induction Hfree as [| s rest Hs Hrest IH]; [contradiction Hne; reflexivity |].
  destruct rest as [| s' rest'].
  - simpl. apply split_whole. exact Hs.
  - cbn [String.concat]. cbn [append].
    rewrite (split_first sep s _ Hs). f_equal. apply IH. discriminate.
Qed.

Lemma nonempty_spec (s : string) : Soup.nonempty s = true <-> s <> "".
Proof. destruct s; simpl; split; intros H; congruence. Qed.

(** ** Stripping *)

Lemma lstrip_by_cut (p : ascii -> bool) (s : string) :
  exists l, s = (l ++ PyStr.lstrip_by p s)%string /\ PyStr.all p l = true.
Proof.
  induction s as [| c rest IH]; simpl.
  - exists "". split; reflexivity.
  - destruct (p c) eqn:Hc.
    + destruct IH as (l & Hs & Hl). exists (String c l). simpl.
      rewrite Hc, Hl. split; [f_equal; exact Hs | reflexivity].
    + exists "". split; reflexivity.
Qed.

Lemma rstrip_by_cut (p : ascii -> bool) (s : string) :
  exists r, s = (PyStr.rstrip_by p s ++ r)%string /\ PyStr.all p r = true.
Proof.
  induction s as [| c rest IH]; simpl.
  - exists "". split; reflexivity.
  - destruct IH as (r & Hs & Hr).
    destruct (PyStr.rstrip_by p rest) as [| d kept].
    + simpl in Hs. subst rest. destruct (p c) eqn:Hc.
      * exists (String c r). simpl. rewrite Hc, Hr. split; reflexivity.
      * exists r. split; [reflexivity | exact Hr].
    + exists r. split; [simpl; f_equal; exact Hs | exact Hr].
Qed.

Lemma rstrip_by_cons (p : ascii -> bool) (c : ascii) (s : string) :
  PyStr.rstrip_by p (String c s)
  = match PyStr.rstrip_by p s with
    | "" => if p c then "" else String c ""
    | kept => String c kept
    end.
Proof. reflexivity. Qed.

Lemma rstrip_by_again (p : ascii -> bool) (s : string) :
  PyStr.rstrip_by p (PyStr.rstrip_by p s) = PyStr.rstrip_by p s.
Proof.
  induction s as [| c rest IH]; [reflexivity |].
  rewrite rstrip_by_cons.
  destruct (PyStr.rstrip_by p rest) as [| d kept] eqn:Hk.
  - destruct (p c) eqn:Hc; simpl; [reflexivity | rewrite Hc; reflexivity].
  - rewrite rstrip_by_cons, IH. reflexivity.
Qed.

Lemma head_outside_lstrip (p : ascii -> bool) (s : string) :
  head_outside p (PyStr.lstrip_by p s) = true.
Proof.
  induction s as [| c rest IH]; simpl; [reflexivity |].
  destruct (p c) eqn:Hc; [exact IH | simpl; rewrite Hc; reflexivity].
Qed.

Lemma head_outside_rstrip (p : ascii -> bool) (s : string) :
  head_outside p s = true -> head_outside p (PyStr.rstrip_by p s) = true.
Proof.
  destruct s as [| c rest]; simpl; [reflexivity |].
  intros Hc. destruct (PyStr.rstrip_by p rest).
  - apply negb_true_iff in Hc. rewrite Hc. simpl. rewrite Hc. reflexivity.
  - simpl. exact Hc.
Qed.

Lemma lstrip_by_headed (p : ascii -> bool) (s : string) :
  head_outside p s = true -> PyStr.lstrip_by p s = s.
Proof.
  destruct s as [| c rest]; simpl; [reflexivity |].
  intros Hc. apply negb_true_iff in Hc. rewrite Hc. reflexivity.
Qed.

Lemma strip_again (s : string) : PyStr.strip (PyStr.strip s) = PyStr.strip s.
Proof.
  unfold PyStr.strip.
  rewrite (lstrip_by_headed _ (PyStr.rstrip_by _ _)).
  - apply rstrip_by_again.
  - apply head_outside_rstrip, head_outside_lstrip.
Qed.

(** ** Pieces that are not empty *)

(** When [pieces_ok] holds, no piece of the split is empty, the first one
    at most when it had a character before the string began. *)
Lemma split_pieces_nonempty (sep : ascii) (s : string) :
  forall fresh,
    pieces_ok sep s fresh = true ->
    match PyStr.split sep s with
    | [] => False
    | first :: others =>
        (fresh = true -> first <> "") /\ Forall (fun piece => piece <> "") others
    end.
Proof.
  induction s as [| c rest IH]; intros fresh H; simpl in *.
  - split; [| constructor]. intros ->. discriminate H.
  - destruct (Ascii.eqb c sep).
    + apply andb_true_iff in H. destruct H as [Hfresh Hrest].
      specialize (IH true Hrest).
      destruct (PyStr.split sep rest) as [| first others]; [contradiction |].
      destruct IH as [Hfirst Hothers]. split.
      * intros ->. discriminate Hfresh.
      * constructor; [apply Hfirst; reflexivity | exact Hothers].
    + specialize (IH false H).
      destruct (PyStr.split sep rest) as [| first others]; [contradiction |].
      destruct IH as [_ Hothers]. split; [intros _; discriminate | exact Hothers].
Qed.

Lemma pieces_ok_then (sep : ascii) (s rest : string) :
  forall fresh,
    pieces_ok sep s fresh = true ->
    pieces_ok sep (s ++ String sep rest)%string fresh = pieces_ok sep rest true.
Proof.
  induction s as [| c s' IH]; intros fresh H; simpl in *.
  - rewrite Ascii.eqb_refl, H. reflexivity.
  - destruct (Ascii.eqb c sep).
    + apply andb_true_iff in H. destruct H as [Hfresh Hs'].
      rewrite Hfresh, (IH true Hs'). reflexivity.
    + apply IH. exact H.
Qed.

Lemma pieces_ok_join (sep : ascii) (parts : list string) :
  parts <> [] ->
  Forall (fun s => pieces_ok sep s true = true) parts ->
  pieces_ok sep (PyStr.join (String sep "") parts) true = true.
Proof.
  intros Hne Hparts. unfold PyStr.join.
  induction Hparts as [| s rest Hs Hrest IH]; [contradiction Hne; reflexivity |].
  destruct rest as [| s' rest'].
  - exact Hs.
  - cbn [String.concat]. cbn [append].
    rewrite (pieces_ok_then sep s _ true Hs). apply IH. discriminate.
Qed.

Lemma last_outside_rstrip (p : ascii -> bool) (s : string) :
  last_outside p (PyStr.rstrip_by p s) = true.
Proof.
  induction s as [| c rest IH]; [reflexivity |].
  rewrite rstrip_by_cons.
  destruct (PyStr.rstrip_by p rest) as [| d kept].
  - destruct (p c) eqn:Hc; simpl; [reflexivity | rewrite Hc; reflexivity].
  - exact IH.
Qed.

Lemma head_outside_weaken (p q : ascii -> bool) (s : string) :
  (forall c, q c = true -> p c = true) ->
  head_outside p s = true -> head_outside q s = true.
Proof.
  intros Hqp. destruct s as [| c rest]; simpl; [reflexivity |].
  intros H. apply negb_true_iff in H. apply negb_true_iff.
  destruct (q c) eqn:Hq; [rewrite (Hqp c Hq) in H; discriminate H | reflexivity].
Qed.

Lemma last_outside_weaken (p q : ascii -> bool) (s : string) :
  (forall c, q c = true -> p c = true) ->
  last_outside p s = true -> last_outside q s = true.
Proof.
  intros Hqp. induction s as [| c rest IH]; [reflexivity |].
  destruct rest as [| d rest']; [| exact IH].
  simpl. intros H. apply negb_true_iff in H. apply negb_true_iff.
  destruct (q c) eqn:Hq; [rewrite (Hqp c Hq) in H; discriminate H | reflexivity].
Qed.

(** A string that neither begins nor ends with [sep] and has no two [sep]
    side by side splits into non-empty pieces. *)
Lemma pieces_ok_clean (sep : ascii) (s : string) :
  forall fresh,
    no_adjacent sep s = true ->
    last_outside (fun c => Ascii.eqb c sep) s = true ->
    (fresh = true -> s <> "" /\ head_outside (fun c => Ascii.eqb c sep) s = true) ->
    (s = "" -> fresh = false) ->
    pieces_ok sep s fresh = true.
Proof.
  induction s as [| c rest IH]; intros fresh Hadj Hlast Hhead Hempty.
  - simpl. rewrite (Hempty eq_refl). reflexivity.
  - cbn [pieces_ok]. destruct (Ascii.eqb c sep) eqn:Hc.
    + assert (Hfresh : fresh = false).
      { destruct fresh; [| reflexivity].
        destruct (Hhead eq_refl) as [_ H]. simpl in H. rewrite Hc in H. discriminate H. }
      rewrite Hfresh. cbn [negb andb].
      destruct rest as [| d rest'].
      * simpl in Hlast. rewrite Hc in Hlast. discriminate Hlast.
      * cbn [no_adjacent] in Hadj. rewrite Hc in Hadj.
        apply andb_true_iff in Hadj. destruct Hadj as [Hd Hadj].
        apply IH; [exact Hadj | exact Hlast | | discriminate].
        intros _. split; [discriminate |]. simpl. exact Hd.
    + destruct rest as [| d rest']; [reflexivity |].
      cbn [no_adjacent] in Hadj.
      apply andb_true_iff in Hadj. destruct Hadj as [_ Hadj].
      apply IH; [exact Hadj | exact Hlast | discriminate | discriminate].
Qed.

Lemma line_break_is_space (c : ascii) :
  Ascii.eqb c Pokedex.LF = true -> PyStr.isspace_char c = true.
Proof. intros H. apply Ascii.eqb_eq in H. subst c. reflexivity. Qed.

(** The stripped, non-empty strings of a header split well when none has
    two line breaks side by side. *)
Lemma stripped_parts_ok (raw : list string) :
  Forall (fun s => no_adjacent Pokedex.LF s = true)
         (filter Soup.nonempty (map PyStr.strip raw)) ->
  Forall (fun s => pieces_ok Pokedex.LF s true = true)
         (filter Soup.nonempty (map PyStr.strip raw)).
Proof.
  intros Hadj. apply Forall_forall. intros part Hin.
  assert (Hpart := proj1 (Forall_forall _ _) Hadj part Hin).
  apply filter_In in Hin. destruct Hin as [Hin Hne].
  apply in_map_iff in Hin. destruct Hin as (x & <- & _).
  apply pieces_ok_clean.
  - exact Hpart.
  - apply (last_outside_weaken PyStr.isspace_char _ _ line_break_is_space).
    apply last_outside_rstrip.
  - intros _. split.
    + intros E. rewrite E in Hne. discriminate Hne.
    + apply (head_outside_weaken PyStr.isspace_char _ _ line_break_is_space).
      apply head_outside_rstrip, head_outside_lstrip.
  - intros E. rewrite E in Hne. discriminate Hne.
Qed.

Lemma no_adjacent_cons (sep a b : ascii) (rest : string) :
  no_adjacent sep (String a (String b rest))
  = negb (Ascii.eqb a sep && Ascii.eqb b sep) && no_adjacent sep (String b rest).
Proof. reflexivity. Qed.

Lemma no_break_no_adjacent (sep : ascii) (s : string) :
  PyStr.mem sep s = false -> no_adjacent sep s = true.
Proof.
  induction s as [| c rest IH]; [reflexivity |].
  intros H. simpl in H. apply orb_false_iff in H. destruct H as [Hc Hrest].
  destruct rest as [| d rest']; [reflexivity |].
  rewrite no_adjacent_cons, (IH Hrest), Ascii.eqb_sym, Hc. reflexivity.
Qed.

(** ** [Pokedex.get_pokedex_column_labels] *)

(** C7, as the code has it.  With a header section present, the labels
    are the strings [get_text] takes from the header, stripped, the empty
    ones dropped, in document order, joined with line breaks and split on
    line breaks again.  When there is at least one such string and none
    has two line breaks side by side, every label is non-empty; when none
    holds a line break at all, the labels are exactly those strings. *)
Theorem column_labels_of_header (self : Pokedex.t) (table thead : node) :
  Pokedex.pokedex_table self = Some table ->
  Soup.find "thead" table = Some thead ->
  let parts := filter Soup.nonempty (map PyStr.strip (Soup.raw_strings thead)) in
  let labels := PyStr.split Pokedex.LF (PyStr.join (String Pokedex.LF "") parts) in
  Pokedex.get_pokedex_column_labels self = Ok labels
  /\ (parts <> [] ->
      Forall (fun s => no_adjacent Pokedex.LF s = true) parts ->
      Forall (fun label => label <> "") labels)
  /\ (parts <> [] ->
      Forall (fun s => PyStr.mem Pokedex.LF s = false) parts ->
      labels = parts /\ Forall (fun label => label <> "") parts).
Proof.
  intros Htable Hthead parts labels.
  split; [| split].
  - unfold Pokedex.get_pokedex_column_labels. rewrite Htable. cbn [Pokedex.deref bind].
    rewrite Hthead. reflexivity.
  - intros Hne Hadj.
    assert (Hok := pieces_ok_join Pokedex.LF parts Hne (stripped_parts_ok _ Hadj)).
    apply split_pieces_nonempty in Hok. fold labels in Hok.
    destruct labels as [| first others]; [contradiction |].
    destruct Hok as [Hfirst Hothers]. constructor; [apply Hfirst; reflexivity | exact Hothers].
  - intros Hne Hfree. split.
    + apply split_join; assumption.
    + apply Forall_forall. intros label Hin. apply filter_In in Hin.
      apply nonempty_spec. tauto.
Qed.

Lemma column_labels_of_header_witness :
  Pokedex.get_pokedex_column_labels
    {| Pokedex.pokedex_table :=
         Some (Tag "table"
                 [Tag "thead"
                    [Tag "tr" [Tag "script" [Text "x"];
                               Tag "th" [Text " # "]; Text "  ";
                               Tag "th" [Text ("Sp." ++ String Pokedex.LF "Atk")%string]]]]) |}
  = Ok ["#"; "Sp."; "Atk"]
  /\ Forall (fun label => label <> "") ["#"; "Sp."; "Atk"].
Proof.
  destruct (column_labels_of_header
              {| Pokedex.pokedex_table :=
                   Some (Tag "table"
                           [Tag "thead"
                              [Tag "tr" [Tag "script" [Text "x"];
                                         Tag "th" [Text " # "]; Text "  ";
                                         Tag "th" [Text ("Sp." ++ String Pokedex.LF "Atk")%string]]]]) |}
              (Tag "table"
                 [Tag "thead"
                    [Tag "tr" [Tag "script" [Text "x"];
                               Tag "th" [Text " # "]; Text "  ";
                               Tag "th" [Text ("Sp." ++ String Pokedex.LF "Atk")%string]]]])
              (Tag "thead"
                 [Tag "tr" [Tag "script" [Special Script "x"];
                            Tag "th" [Text " # "]; Text "  ";
                            Tag "th" [Text ("Sp." ++ String Pokedex.LF "Atk")%string]]])
              eq_refl eq_refl) as (Hrun & Hnonempty & _).
  split; [exact Hrun |].
  apply Hnonempty; [discriminate | repeat constructor].
Defined.

(** C7, as stated, fails: a header section without text gives one label,
    the empty string. *)
Lemma empty_header_counterexample :
  ~ (forall (self : Pokedex.t) (table thead : node),
        Pokedex.pokedex_table self = Some table ->
        Soup.find "thead" table = Some thead ->
        exists labels,
          Pokedex.get_pokedex_column_labels self = Ok labels
          /\ Forall (fun label => label <> "") labels).
Proof.
  intros H.
  destruct (H {| Pokedex.pokedex_table := Some (Tag "table" [Tag "thead" []]) |}
              (Tag "table" [Tag "thead" []]) (Tag "thead" []) eq_refl eq_refl)
    as (labels & Hrun & Hall).
  vm_compute in Hrun. inversion Hrun; subst labels.
  inversion Hall as [| ? ? Hhead _]. apply Hhead. reflexivity.
Qed.

(* ================================================================== *)
(** * Further properties of the extraction code *)

(** ** What [is_digit] accepts and what [int] makes of it *)

Lemma all_app (p : ascii -> bool) (s t : string) :
  PyStr.all p (s ++ t)%string = PyStr.all p s && PyStr.all p t.
Proof.
  induction s as [| c rest IH]; simpl; [reflexivity |].
  rewrite IH. apply andb_assoc.
Qed.

Lemma all_repeat (p : ascii -> bool) (c : ascii) (n : nat) :
  p c = true -> PyStr.all p (repeat_char c n) = true.
Proof.
  intros Hc. induction n as [| n IH]; simpl; [reflexivity |].
  rewrite Hc, IH. reflexivity.
Qed.

Lemma digit_not_int_space (c : ascii) :
  PyStr.isdigit_char c = true -> PyStr.int_space_char c = false.
Proof.
  unfold PyStr.isdigit_char, PyStr.int_space_char.
  destruct (N.leb_spec 48 (PyStr.code c)), (N.leb_spec (PyStr.code c) 57),
    (N.eqb_spec (PyStr.code c) 178), (N.eqb_spec (PyStr.code c) 179),
    (N.eqb_spec (PyStr.code c) 185); cbn [andb orb]; try discriminate; intros _;
    destruct (N.leb_spec 9 (PyStr.code c)), (N.leb_spec (PyStr.code c) 13),
      (N.eqb_spec (PyStr.code c) 32), (N.eqb_spec (PyStr.code c) 133),
      (N.eqb_spec (PyStr.code c) 160); cbn [andb orb]; try reflexivity; lia.
Qed.

Lemma digit_not_space (c : ascii) :
  PyStr.isdigit_char c = true -> PyStr.isspace_char c = false.
Proof.
  unfold PyStr.isdigit_char, PyStr.isspace_char.
  destruct (N.leb_spec 48 (PyStr.code c)), (N.leb_spec (PyStr.code c) 57),
    (N.eqb_spec (PyStr.code c) 178), (N.eqb_spec (PyStr.code c) 179),
    (N.eqb_spec (PyStr.code c) 185); cbn [andb orb]; try discriminate; intros _;
    destruct (N.leb_spec 9 (PyStr.code c)), (N.leb_spec (PyStr.code c) 13),
      (N.leb_spec 28 (PyStr.code c)), (N.leb_spec (PyStr.code c) 32),
      (N.eqb_spec (PyStr.code c) 133), (N.eqb_spec (PyStr.code c) 160);
    cbn [andb orb]; try reflexivity; lia.
Qed.

Lemma all_digit_no_int_space (s : string) :
  PyStr.all PyStr.isdigit_char s = true ->
  PyStr.all (fun c => negb (PyStr.int_space_char c)) s = true.
Proof.
  induction s as [| c rest IH]; simpl; [reflexivity |].
  intros H. apply andb_true_iff in H. destruct H as [Hc Hrest].
  rewrite (digit_not_int_space _ Hc), (IH Hrest). reflexivity.
Qed.

Lemma isdigit_all (ds : string) :
  PyStr.isdigit ds = true -> ds <> "" /\ PyStr.all PyStr.isdigit_char ds = true.
Proof.
  destruct ds as [| c rest]; [discriminate |].
  intros H. split; [discriminate | exact H].
Qed.

(** Digits that are not all decimal are no [int] literal. *)
Lemma int_digits_not_decimal (s : string) :
  PyStr.all PyStr.isdigit_char s = true ->
  PyStr.all PyStr.isdecimal_char s = false ->
  forall acc b, PyStr.int_digits s acc b = None.
Proof.
  induction s as [| c rest IH]; simpl; [discriminate |].
  intros Hdig Hdec acc b.
  apply andb_true_iff in Hdig. destruct Hdig as [Hc Hrest].
  destruct (PyStr.isdecimal_char c) eqn:Hd.
  - apply IH; [exact Hrest | exact Hdec].
  - destruct (Ascii.eqb_spec c "_") as [-> | _]; [discriminate Hc | reflexivity].
Qed.

(** The digits of an accepted text, read by [int_digits]. *)
Lemma int_digits_of_digits (ds : string) :
  PyStr.isdigit ds = true ->
  forall b,
    PyStr.int_digits ds 0 b
    = if PyStr.all PyStr.isdecimal_char ds then Some (decimal_value ds) else None.
Proof.
  intros Hdig b. destruct (isdigit_all ds Hdig) as [Hne Hall].
  destruct (PyStr.all PyStr.isdecimal_char ds) eqn:Hdec.
  - rewrite (int_digits_decimal ds Hdec). destruct ds; [contradiction | reflexivity].
  - apply int_digits_not_decimal; assumption.
Qed.

(** The literal of an accepted text's digits. *)
Lemma int_literal_of_digits (ds : string) :
  PyStr.isdigit ds = true ->
  PyStr.int_literal ds
  = if PyStr.all PyStr.isdecimal_char ds
       && (N.of_nat (String.length ds) <=? PyStr.int_max_str_digits)%N
    then Some (decimal_value ds)
    else None.
Proof.
  intros Hdig. unfold PyStr.int_literal.
  rewrite (int_digits_of_digits ds Hdig false).
  destruct (PyStr.all PyStr.isdecimal_char ds) eqn:Hdec.
  - rewrite (count_digits_decimal ds Hdec). reflexivity.
  - destruct (PyStr.count_digits ds <=? PyStr.int_max_str_digits)%N; reflexivity.
Qed.

Lemma int_literal_sign_first (sign : ascii) (rest : string) :
  sign = "-"%char \/ sign = "+"%char ->
  PyStr.int_literal (String sign rest) = None.
Proof.
  intros Hsign. unfold PyStr.int_literal.
  destruct (PyStr.count_digits (String sign rest) <=? PyStr.int_max_str_digits)%N;
    [| reflexivity].
  destruct Hsign as [-> | ->]; reflexivity.
Qed.

(** [int] on a text the classifier accepts: the integer when there is at
    most one sign, every digit is decimal and the digits are within the
    limit, [ValueError] otherwise. *)
Lemma int_of_accepted (m p : nat) (ds : string) :
  PyStr.isdigit ds = true ->
  (m = 1 -> p = 0) ->
  PyStr.int (repeat_char "-" m ++ repeat_char "+" p ++ ds)%string
  = if (m + p <=? 1)%nat
       && (PyStr.all PyStr.isdecimal_char ds
           && (N.of_nat (String.length ds) <=? PyStr.int_max_str_digits)%N)
    then Some (if (m =? 1)%nat then (- decimal_value ds)%Z else decimal_value ds)
    else None.
Proof.
  intros Hdig Hmp. destruct (isdigit_all ds Hdig) as [Hne Hall].
  unfold PyStr.int. rewrite strip_by_keeps.
  2:{ rewrite !all_app, !all_repeat by reflexivity.
      rewrite (all_digit_no_int_space _ Hall). reflexivity. }
  assert (Hd := int_literal_of_digits ds Hdig).
  destruct (isdigit_head ds Hdig) as (c & rest & Hds & Hm & Hp).
  destruct m as [| [| m]].
  - destruct p as [| [| p]].
    + cbn [repeat_char append Nat.add Nat.leb Nat.eqb andb]. rewrite <- Hd.
      rewrite Hds. clear - Hm Hp.
      destruct c as [[] [] [] [] [] [] [] []]; try reflexivity; discriminate.
    + cbn [repeat_char append Nat.add Nat.leb Nat.eqb andb]. exact Hd.
    + cbn [repeat_char append Nat.add Nat.leb Nat.eqb andb].
      apply int_literal_sign_first. right; reflexivity.
  - rewrite (Hmp eq_refl).
    cbn [repeat_char append Nat.add Nat.leb Nat.eqb andb]. rewrite Hd.
    destruct (PyStr.all PyStr.isdecimal_char ds
              && (N.of_nat (String.length ds) <=? PyStr.int_max_str_digits)%N);
      reflexivity.
  - cbn [repeat_char append Nat.add Nat.leb Nat.eqb andb].
    rewrite int_literal_sign_first by (left; reflexivity). reflexivity.
Qed.

(** The first guard of [is_digit] never decides: a text that begins with
    "+-" is refused by the digit test as well. *)
Theorem is_digit_first_guard_redundant (s : string) :
  TextUtil.is_digit s
  = negb (String.eqb (PyStr.slice_to 2 s) "-+")
    && PyStr.isdigit (PyStr.lstrip "+" (PyStr.lstrip "-" s)).
Proof.
  unfold TextUtil.is_digit.
  destruct (String.eqb_spec (PyStr.slice_to 2 s) "+-") as [Hpm | _]; [| reflexivity].
  destruct s as [| a [| b rest]]; try discriminate Hpm.
  cbn [PyStr.slice_to] in Hpm. inversion Hpm; subst a b. reflexivity.
Qed.

(** The texts [is_digit] accepts: any number of '-', then any number of
    '+', then one or more digits, a single '-' followed by '+' excepted. *)
Theorem is_digit_language (s : string) :
  TextUtil.is_digit s = true <->
  exists m p ds,
    s = (repeat_char "-" m ++ repeat_char "+" p ++ ds)%string
    /\ ds <> ""
    /\ PyStr.all PyStr.isdigit_char ds = true
    /\ ~ (m = 1 /\ 0 < p).
Proof.
  rewrite is_digit_accepts. split.
  - intros (m & p & ds & Hs & Hdig & Hmp). exists m, p, ds.
    destruct (isdigit_all ds Hdig) as [Hne Hall].
    repeat split; try assumption. intros [Hm Hp]. specialize (Hmp Hm). lia.
  - intros (m & p & ds & Hs & Hne & Hall & Hmp). exists m, p, ds.
    repeat split; try assumption.
    + destruct ds; [contradiction | exact Hall].
    + intros Hm. destruct p; [reflexivity | exfalso; apply Hmp; split; [exact Hm | lia]].
Qed.

(** ** The outcomes of [get_cell_text] *)

(** An integer comes out exactly for decimal digits, no more of them than
    [int] takes, behind at most one sign, and it is the integer they
    write. *)
Theorem get_cell_text_int_iff (cell : node) (i : Z) :
  get_cell_text cell = Ok (VInt i) <->
  exists ds,
    decimal_digits ds
    /\ within_digit_limit ds
    /\ ((Soup.get_text "" false cell = ds /\ i = decimal_value ds)
        \/ (Soup.get_text "" false cell = String "+" ds /\ i = decimal_value ds)
        \/ (Soup.get_text "" false cell = String "-" ds /\ i = (- decimal_value ds)%Z)).
Proof.
  split.
  - unfold get_cell_text. cbv zeta.
    destruct (TextUtil.is_digit (Soup.get_text "" false cell)) eqn:Hacc; [| discriminate].
    destruct (PyStr.int (Soup.get_text "" false cell)) as [j |] eqn:Hint; [| discriminate].
    intros H. inversion H; subst j. clear H.
    apply is_digit_accepts in Hacc. destruct Hacc as (m & p & ds & Hs & Hdig & Hmp).
    rewrite Hs, (int_of_accepted m p ds Hdig Hmp) in Hint.
    destruct (isdigit_all ds Hdig) as [Hne _].
    destruct (PyStr.all PyStr.isdecimal_char ds) eqn:Hdec;
      [| rewrite andb_false_r in Hint; discriminate Hint].
    destruct (N.leb_spec (N.of_nat (String.length ds)) PyStr.int_max_str_digits)
      as [Hlimit | Hover];
      [| rewrite andb_false_r in Hint; discriminate Hint].
    exists ds. split; [split; assumption |]. split; [exact Hlimit |].
    destruct m as [| [| m]]; [destruct p as [| [| p]] | |]; try discriminate Hint.
    + left. inversion Hint. split; [exact Hs | reflexivity].
    + right; left. inversion Hint. split; [exact Hs | reflexivity].
    + right; right. rewrite (Hmp eq_refl) in *. inversion Hint.
      split; [exact Hs | reflexivity].
  - intros (ds & Hds & Hlimit & H).
    destruct (get_cell_text_int cell ds Hds Hlimit) as (H0 & H1 & H2).
    destruct H as [[Ht ->] | [[Ht ->] | [Ht ->]]]; auto.
Qed.

(** Resolving raises nothing but [ValueError], and exactly on an accepted
    text with two or more signs, with a digit that is not decimal, or with
    more digits than [int] takes. *)
Theorem get_cell_text_raises_iff (cell : node) (e : exn) :
  get_cell_text cell = Raise e <->
  e = ValueError
  /\ exists m p ds,
      Soup.get_text "" false cell
      = (repeat_char "-" m ++ repeat_char "+" p ++ ds)%string
      /\ PyStr.isdigit ds = true
      /\ (m = 1 -> p = 0)
      /\ (2 <= m + p
          \/ PyStr.all PyStr.isdecimal_char ds = false
          \/ ~ within_digit_limit ds).
Proof.
  unfold get_cell_text. cbv zeta. split.
  - destruct (TextUtil.is_digit (Soup.get_text "" false cell)) eqn:Hacc; [| discriminate].
    destruct (PyStr.int (Soup.get_text "" false cell)) as [j |] eqn:Hint; [discriminate |].
    intros H. inversion H. split; [reflexivity |].
    apply is_digit_accepts in Hacc. destruct Hacc as (m & p & ds & Hs & Hdig & Hmp).
    exists m, p, ds. repeat split; try assumption.
    rewrite Hs, (int_of_accepted m p ds Hdig Hmp) in Hint.
    destruct (Nat.leb_spec (m + p) 1) as [Hle | Hgt]; [| left; lia].
    destruct (PyStr.all PyStr.isdecimal_char ds); [| right; left; reflexivity].
    destruct (N.leb_spec (N.of_nat (String.length ds)) PyStr.int_max_str_digits)
      as [Hlimit | Hover]; [discriminate Hint |].
    right; right. unfold within_digit_limit. lia.
  - intros (-> & m & p & ds & Hs & Hdig & Hmp & Hbad).
    assert (Hacc : TextUtil.is_digit (Soup.get_text "" false cell) = true).
    { apply is_digit_accepts. exists m, p, ds. repeat split; assumption. }
    rewrite Hacc, Hs, (int_of_accepted m p ds Hdig Hmp).
    destruct Hbad as [Hsigns | [Hdec | Hover]].
    + destruct (Nat.leb_spec (m + p) 1) as [Hle | Hgt]; [lia | reflexivity].
    + rewrite Hdec, andb_false_r. reflexivity.
    + destruct (N.leb_spec (N.of_nat (String.length ds)) PyStr.int_max_str_digits)
        as [Hlimit | _]; [contradiction |].
      rewrite !andb_false_r. reflexivity.
Qed.

(** A string comes out exactly when the classifier refuses the text; it is
    the text without a run of whitespace at each end, and stripping it
    again changes nothing. *)
Theorem get_cell_text_str_iff (cell : node) (t : string) :
  get_cell_text cell = Ok (VStr t) <->
  TextUtil.is_digit (Soup.get_text "" false cell) = false
  /\ t = PyStr.strip (Soup.get_text "" false cell)
  /\ PyStr.strip t = t
  /\ exists l r,
      Soup.get_text "" false cell = (l ++ t ++ r)%string
      /\ PyStr.all PyStr.isspace_char l = true
      /\ PyStr.all PyStr.isspace_char r = true.
Proof.
  unfold get_cell_text. cbv zeta. split.
  - destruct (TextUtil.is_digit (Soup.get_text "" false cell)) eqn:Hacc.
    + destruct (PyStr.int (Soup.get_text "" false cell)); discriminate.
    + intros H. inversion H. split; [reflexivity |]. split; [reflexivity |].
      split; [apply strip_again |].
      destruct (lstrip_by_cut PyStr.isspace_char (Soup.get_text "" false cell))
        as (l & Hl & Hlw).
      destruct (rstrip_by_cut PyStr.isspace_char
                  (PyStr.lstrip_by PyStr.isspace_char (Soup.get_text "" false cell)))
        as (r & Hr & Hrw).
      exists l, r. unfold PyStr.strip. rewrite <- Hr. repeat split; assumption.
  - intros (Hacc & -> & _). rewrite Hacc. reflexivity.
Qed.

Lemma lstrip_by_pad (p : ascii -> bool) (l s : string) :
  PyStr.all p l = true ->
  PyStr.lstrip_by p (l ++ s)%string = PyStr.lstrip_by p s.
Proof.
  induction l as [| c rest IH]; simpl; [reflexivity |].
  intros H. apply andb_true_iff in H. destruct H as [Hc Hrest].
  rewrite Hc. apply IH. exact Hrest.
Qed.

Lemma rstrip_by_all (p : ascii -> bool) (r : string) :
  PyStr.all p r = true -> PyStr.rstrip_by p r = "".
Proof.
  induction r as [| c rest IH]; simpl; [reflexivity |].
  intros H. apply andb_true_iff in H. destruct H as [Hc Hrest].
  rewrite (IH Hrest), Hc. reflexivity.
Qed.

Lemma rstrip_by_pad (p : ascii -> bool) (s r : string) :
  PyStr.all (fun c => negb (p c)) s = true ->
  PyStr.all p r = true ->
  PyStr.rstrip_by p (s ++ r)%string = s.
Proof.
  intros Hs Hr. induction s as [| c rest IH].
  - apply rstrip_by_all. exact Hr.
  - simpl in Hs. apply andb_true_iff in Hs. destruct Hs as [Hc Hrest].
    cbn [append]. rewrite rstrip_by_cons, (IH Hrest).
    apply negb_true_iff in Hc. rewrite Hc. destruct rest; reflexivity.
Qed.

(** A padded string loses exactly its padding. *)
Lemma strip_by_pads (p : ascii -> bool) (l s r : string) :
  s <> "" ->
  PyStr.all (fun c => negb (p c)) s = true ->
  PyStr.all p l = true ->
  PyStr.all p r = true ->
  PyStr.rstrip_by p (PyStr.lstrip_by p (l ++ s ++ r)%string) = s.
Proof.
  intros Hne Hs Hl Hr. rewrite (lstrip_by_pad p l _ Hl).
  rewrite lstrip_by_headed.
  - apply rstrip_by_pad; assumption.
  - destruct s as [| c rest]; [contradiction |].
    simpl in *. apply andb_true_iff in Hs. tauto.
Qed.

Lemma all_decimal_no_space (s : string) :
  PyStr.all PyStr.isdecimal_char s = true ->
  PyStr.all (fun c => negb (PyStr.isspace_char c)) s = true.
Proof.
  induction s as [| c rest IH]; simpl; [reflexivity |].
  intros H. apply andb_true_iff in H. destruct H as [Hc Hrest].
  rewrite (digit_not_space _ (decimal_is_digit_char _ Hc)), (IH Hrest). reflexivity.
Qed.

Lemma space_not_digit (c : ascii) :
  PyStr.isspace_char c = true -> PyStr.isdigit_char c = false.
Proof.
  intros Hs. destruct (PyStr.isdigit_char c) eqn:Hd; [| reflexivity].
  rewrite (digit_not_space _ Hd) in Hs. discriminate Hs.
Qed.

Lemma space_not_sign (c : ascii) :
  PyStr.isspace_char c = true -> Ascii.eqb c "-" = false /\ Ascii.eqb c "+" = false.
Proof.
  intros Hs. split.
  - destruct (Ascii.eqb_spec c "-") as [-> | _]; [discriminate Hs | reflexivity].
  - destruct (Ascii.eqb_spec c "+") as [-> | _]; [discriminate Hs | reflexivity].
Qed.

(** The classifier refuses a padded number. *)
Lemma is_digit_padded (l r ds : string) :
  decimal_digits ds ->
  PyStr.all PyStr.isspace_char l = true ->
  PyStr.all PyStr.isspace_char r = true ->
  (l ++ r)%string <> "" ->
  TextUtil.is_digit (l ++ ds ++ r)%string = false.
Proof.
  intros [Hne Hdec] Hl Hr Hpad. unfold TextUtil.is_digit, PyStr.lstrip.
  apply andb_false_iff. right.
  destruct l as [| c l'].
  - cbn [append] in *. destruct ds as [| d ds']; [contradiction |].
    assert (Hd : PyStr.isdecimal_char d = true).
    { simpl in Hdec. apply andb_true_iff in Hdec. tauto. }
    cbn [append PyStr.lstrip_by PyStr.mem].
    rewrite (decimal_not_minus _ Hd). cbn [orb PyStr.lstrip_by PyStr.mem].
    rewrite (decimal_not_plus _ Hd). cbn [orb PyStr.isdigit].
    change (String d (ds' ++ r)%string) with (String d ds' ++ r)%string.
    rewrite all_app. apply andb_false_iff. right.
    destruct r as [| c r']; [contradiction Hpad; reflexivity |].
    simpl in Hr. apply andb_true_iff in Hr. destruct Hr as [Hc _].
    simpl. rewrite (space_not_digit _ Hc). reflexivity.
  - simpl in Hl. apply andb_true_iff in Hl. destruct Hl as [Hc _].
    destruct (space_not_sign _ Hc) as [Hm Hp].
    cbn [append PyStr.lstrip_by PyStr.mem]. rewrite Hm.
    cbn [orb PyStr.lstrip_by PyStr.mem]. rewrite Hp.
    cbn [orb PyStr.isdigit PyStr.all]. rewrite (space_not_digit _ Hc). reflexivity.
Qed.

(** Digits with whitespace around them stay text: the cell resolves to the
    digits as a string, although [int] reads the same text as a number
    when the padding is whitespace [int] drops and the digits are within
    its limit. *)
Theorem padded_number_stays_text (l r ds : string) :
  decimal_digits ds ->
  PyStr.all PyStr.isspace_char l = true ->
  PyStr.all PyStr.isspace_char r = true ->
  (l ++ r)%string <> "" ->
  get_cell_text (Text (l ++ ds ++ r)%string) = Ok (VStr ds)
  /\ (PyStr.all PyStr.int_space_char l = true ->
      PyStr.all PyStr.int_space_char r = true ->
      within_digit_limit ds ->
      PyStr.int (l ++ ds ++ r)%string = Some (decimal_value ds)).
Proof.
  intros Hds Hl Hr Hpad. split.
  - unfold get_cell_text. rewrite get_text_of_text. cbv zeta.
    rewrite (is_digit_padded l r ds Hds Hl Hr Hpad).
    unfold PyStr.strip. destruct Hds as [Hne Hdec].
    rewrite strip_by_pads; try assumption; [reflexivity |].
    apply all_decimal_no_space. exact Hdec.
  - intros Hil Hir Hlimit. destruct Hds as [Hne Hdec]. unfold PyStr.int.
    rewrite strip_by_pads; try assumption;
      [| apply all_decimal_no_int_space; exact Hdec].
    destruct (int_signed_decimal ds (conj Hne Hdec) Hlimit) as [H0 _].
    unfold PyStr.int in H0.
    rewrite strip_by_keeps in H0 by (apply all_decimal_no_int_space; exact Hdec).
    exact H0.
Qed.

Lemma padded_number_stays_text_witness :
  get_cell_text (Text " 42 ") = Ok (VStr "42")
  /\ PyStr.int " 42 " = Some 42%Z.
Proof.
  destruct (padded_number_stays_text " " " " "42") as [Hcell Hint].
  - split; [discriminate | reflexivity].
  - reflexivity.
  - reflexivity.
  - discriminate.
  - split; [exact Hcell |]. apply Hint; try reflexivity.
    unfold within_digit_limit. vm_compute. discriminate.
Defined.

(** ** Markup inside a cell *)













(** ** Failure and the whole result of [get_pokedex_data_dict] *)

Lemma get_cell_text_exn (cell : node) (e : exn) :
  get_cell_text cell = Raise e -> e = ValueError.
Proof.
  unfold get_cell_text. cbv zeta.
  destruct (TextUtil.is_digit (Soup.get_text "" false cell)); [| discriminate].
  destruct (PyStr.int (Soup.get_text "" false cell)); [discriminate |].
  intros H. inversion H. reflexivity.
Qed.

Lemma resolves_or_raises (cell : node) :
  resolves cell \/ get_cell_text cell = Raise ValueError.
Proof.
  destruct (get_cell_text cell) as [v | e] eqn:H.
  - left. exists v. exact H.
  - right. rewrite <- (get_cell_text_exn _ _ H). reflexivity.
Qed.

Lemma not_resolves (cell : node) :
  get_cell_text cell = Raise ValueError -> ~ resolves cell.
Proof. intros H [v Hv]. congruence. Qed.

Lemma Forall_or_not {A : Type} (P : A -> Prop) (l : list A) :
  (forall x, P x \/ ~ P x) -> Forall P l \/ ~ Forall P l.
Proof.
  intros Hdec. induction l as [| x rest IH]; [left; constructor |].
  destruct (Hdec x) as [Hx | Hx].
  - destruct IH as [Hrest | Hrest].
    + left. constructor; assumption.
    + right. intros H. inversion H. contradiction.
  - right. intros H. inversion H. contradiction.
Qed.

Lemma resolves_decided (cell : node) : resolves cell \/ ~ resolves cell.
Proof.
  destruct (resolves_or_raises cell) as [H | H]; [left; exact H |].
  right. apply not_resolves. exact H.
Qed.

Lemma row_resolves_decided (column_labels : list string) (row : node) :
  row_resolves column_labels row \/ ~ row_resolves column_labels row.
Proof. apply Forall_or_not. intros pair. apply resolves_decided. Qed.

(** The inner loop raises [ValueError] at the first cell that does not
    resolve. *)
Lemma add_cells_fail (pairs : list (node * string)) :
  forall d : Dict.t (list value),
    (forall pair, In pair pairs -> In (snd pair) (Dict.keys d)) ->
    ~ Forall (fun pair => resolves (fst pair)) pairs ->
    for_each Pokedex.add_cell pairs d = Raise ValueError.
Proof.
  induction pairs as [| [cell l] rest IH]; intros d Hkeys Hbad.
  - contradiction Hbad. constructor.
  - cbn [for_each]. destruct (get_cell_text cell) as [v | e] eqn:Hv.
    + destruct (add_cell_ok d cell l v Hv) as (d1 & Hstep & Hk & _).
      { apply (Hkeys (cell, l)). left; reflexivity. }
      rewrite Hstep. cbn [bind]. apply IH.
      * intros pair Hin. rewrite Hk. apply Hkeys. right; exact Hin.
      * intros Hrest. apply Hbad. constructor; [exists v; exact Hv | exact Hrest].
    + unfold Pokedex.add_cell. rewrite Hv, (get_cell_text_exn _ _ Hv). reflexivity.
Qed.

Lemma add_rows_fail (column_labels : list string) (rows : list node) :
  forall d : Dict.t (list value),
    (forall l, In l column_labels -> In l (Dict.keys d)) ->
    ~ Forall (row_resolves column_labels) rows ->
    for_each (Pokedex.add_row column_labels) rows d = Raise ValueError.
Proof.
  induction rows as [| row rest IH]; intros d Hkeys Hbad.
  - contradiction Hbad. constructor.
  - cbn [for_each]. destruct (row_resolves_decided column_labels row) as [Hrow | Hrow].
    + destruct (add_row_ok column_labels d row Hrow Hkeys) as (d1 & Hstep & Hk & _).
      rewrite Hstep. cbn [bind]. apply IH.
      * intros l Hin. rewrite Hk. apply Hkeys. exact Hin.
      * intros Hrest. apply Hbad. constructor; assumption.
    + unfold Pokedex.add_row. rewrite add_cells_fail; [reflexivity | | exact Hrow].
      intros pair Hin. apply Hkeys. exact (pairs_of_labels _ _ _ Hin).
Qed.

Lemma data_dict_fail (column_labels : list string) (rows : list node) :
  ~ Forall (row_resolves column_labels) rows ->
  Pokedex.get_pokedex_data_dict column_labels rows = Raise ValueError.
Proof.
  intros Hbad. apply add_rows_fail; [| exact Hbad].
  intros l Hin. rewrite keys_fromkeys. apply in_distinct. exact Hin.
Qed.

(** A dictionary is its keys with the values found under them. *)
Lemma dict_as_map {V : Type} (d : Dict.t V) (f : string -> V) :
  NoDup (Dict.keys d) ->
  (forall l, In l (Dict.keys d) -> Dict.get d l = Some (f l)) ->
  d = map (fun l => (l, f l)) (Dict.keys d).
Proof.
  induction d as [| [k v] rest IH]; intros Hnd Hget; [reflexivity |].
  inversion Hnd as [| ? ? Hnotin Hrest]; subst. cbn [Dict.keys map fst].
  f_equal.
  - specialize (Hget k (or_introl eq_refl)). simpl in Hget.
    rewrite String.eqb_refl in Hget. inversion Hget. reflexivity.
  - apply IH; [exact Hrest |]. intros l Hin.
    specialize (Hget l (or_intror Hin)). simpl in Hget.
    destruct (String.eqb_spec k l) as [-> | _]; [contradiction | exact Hget].
Qed.

Lemma data_dict_value (column_labels : list string) (rows : list node) :
  Forall (row_resolves column_labels) rows ->
  Pokedex.get_pokedex_data_dict column_labels rows
  = Ok (map (fun l => (l, column column_labels rows l)) (distinct column_labels)).
Proof.
  intros Hres. destruct (data_dict_returns _ _ Hres) as [d Hd].
  rewrite Hd. f_equal. destruct (data_dict_ok _ _ _ Hd) as [K G].
  rewrite <- K. apply dict_as_map.
  - rewrite K. apply NoDup_distinct.
  - intros l Hin. apply G. apply in_distinct. rewrite <- K. exact Hin.
Qed.

(** The call returns a table exactly when every paired cell of every row
    resolves; otherwise it raises [ValueError], and it raises nothing
    else: no key is ever missing. *)
Theorem data_dict_outcome (column_labels : list string) (content_rows : list node) :
  (Forall (row_resolves column_labels) content_rows <->
   exists d, Pokedex.get_pokedex_data_dict column_labels content_rows = Ok d)
  /\ (~ Forall (row_resolves column_labels) content_rows <->
      Pokedex.get_pokedex_data_dict column_labels content_rows = Raise ValueError)
  /\ (forall e, Pokedex.get_pokedex_data_dict column_labels content_rows = Raise e ->
                e = ValueError).
Proof.
  assert (Hinv : forall d, Pokedex.get_pokedex_data_dict column_labels content_rows = Ok d ->
                           Forall (row_resolves column_labels) content_rows).
  { intros d Hd. exact (add_rows_ok_inv _ _ _ _ Hd). }
  repeat split.
  - apply data_dict_returns.
  - intros [d Hd]. exact (Hinv d Hd).
  - apply data_dict_fail.
  - intros Hraise Hres. destruct (data_dict_returns _ _ Hres) as [d Hd]. congruence.
  - intros e He.
    destruct (Forall_or_not _ content_rows (row_resolves_decided column_labels))
      as [Hres | Hbad].
    + destruct (data_dict_returns _ _ Hres) as [d Hd]. congruence.
    + rewrite (data_dict_fail _ _ Hbad) in He. inversion He. reflexivity.
Qed.

(** The returned table, written out: one item per distinct label, in the
    order of first occurrence, holding that label's column. *)
Theorem data_dict_closed_form (column_labels : list string) (content_rows : list node)
        (d : Dict.t (list value)) :
  Pokedex.get_pokedex_data_dict column_labels content_rows = Ok d ->
  d = map (fun l => (l, column column_labels content_rows l)) (distinct column_labels).
Proof.
  intros Hd. assert (Hres := add_rows_ok_inv _ _ _ _ Hd).
  rewrite (data_dict_value _ _ Hres) in Hd. inversion Hd. reflexivity.
Qed.

Lemma data_dict_closed_form_witness :
  [("A", [VInt 1; VStr "y"]); ("B", [VStr "x"])]
  = map (fun l => (l, column ["A"; "B"; "A"] [tr ["1"; "x"; "y"]] l))
        (distinct ["A"; "B"; "A"]).
Proof.
  apply (data_dict_closed_form ["A"; "B"; "A"] [tr ["1"; "x"; "y"]]). reflexivity.
Defined.

(** Without rows every distinct label gets an empty column; without labels
    the table is empty whatever the rows hold, cells that would not
    resolve included. *)
Theorem data_dict_empty_inputs (column_labels : list string) (content_rows : list node) :
  Pokedex.get_pokedex_data_dict column_labels []
  = Ok (map (fun l => (l, [])) (distinct column_labels))
  /\ Pokedex.get_pokedex_data_dict [] content_rows = Ok [].
Proof.
  split.
  - apply (data_dict_value column_labels []). constructor.
  - unfold Pokedex.get_pokedex_data_dict. cbn [Dict.fromkeys fold_left].
    induction content_rows as [| row rest IH]; [reflexivity |].
    cbn [for_each]. unfold Pokedex.add_row at 1. rewrite combine_nil. exact IH.
Qed.

(** ** Counting the values *)

Lemma list_sum_zero {A : Type} (l : list A) :
  list_sum (map (fun _ => 0) l) = 0.
Proof. induction l as [| x rest IH]; simpl; [reflexivity | exact IH]. Qed.

Lemma list_sum_cons (n : nat) (l : list nat) : list_sum (n :: l) = n + list_sum l.
Proof. reflexivity. Qed.

Lemma list_sum_plus {A : Type} (f g : A -> nat) (l : list A) :
  list_sum (map (fun x => f x + g x) l) = list_sum (map f l) + list_sum (map g l).
Proof. induction l as [| x rest IH]; simpl; [reflexivity | rewrite IH; lia]. Qed.

Lemma no_key_matches (keys : list string) (l : string) :
  ~ In l keys ->
  list_sum (map (fun k => if String.eqb l k then 1 else 0) keys) = 0.
Proof.
  induction keys as [| x rest IH]; simpl; [reflexivity |].
  intros Hnot. destruct (String.eqb_spec l x) as [-> | _].
  - contradiction Hnot. left; reflexivity.
  - apply IH. intros H. apply Hnot. right; exact H.
Qed.

Lemma one_key_matches (keys : list string) (l : string) :
  NoDup keys -> In l keys ->
  list_sum (map (fun k => if String.eqb l k then 1 else 0) keys) = 1.
Proof.
  induction 1 as [| x rest Hnotin Hnd IH]; simpl; [intros [] |].
  intros Hin. destruct (String.eqb_spec l x) as [-> | Hne].
  - rewrite (no_key_matches rest x Hnotin). reflexivity.
  - apply IH. destruct Hin as [E | H]; [congruence | exact H].
Qed.

(** Over the keys, the values a row adds are as many as its pairs. *)
Lemma paired_values_total (keys : list string) (pairs : list (node * string)) :
  NoDup keys ->
  (forall pair, In pair pairs -> In (snd pair) keys) ->
  Forall (fun pair => resolves (fst pair)) pairs ->
  list_sum (map (fun k => length (paired_values k pairs)) keys) = length pairs.
Proof.
  intros Hnd Hkeys Hres. induction Hres as [| [cell l] rest [v Hv] Hrest IH].
  - apply list_sum_zero.
  - cbn [fst] in Hv.
    rewrite (map_ext _ (fun k => (if String.eqb l k then 1 else 0)
                                 + length (paired_values k rest))).
    + rewrite list_sum_plus, IH, one_key_matches.
      * reflexivity.
      * exact Hnd.
      * apply (Hkeys (cell, l)). left; reflexivity.
      * intros pair Hin. apply Hkeys. right; exact Hin.
    + intros k. unfold paired_values. cbn [flat_map fst snd].
      rewrite length_app, (resolved_of_ok _ _ Hv).
      destruct (String.eqb l k); reflexivity.
Qed.

Lemma column_total (column_labels : list string) (rows : list node) :
  Forall (row_resolves column_labels) rows ->
  list_sum (map (fun l => length (column column_labels rows l)) (distinct column_labels))
  = list_sum (map (fun row => length (pairs_of column_labels row)) rows).
Proof.
  induction 1 as [| row rest Hrow Hrest IH].
  - apply list_sum_zero.
  - rewrite map_cons, list_sum_cons, <- IH.
    rewrite <- (paired_values_total (distinct column_labels) (pairs_of column_labels row)).
    + rewrite <- list_sum_plus. f_equal. apply map_ext. intros l.
      unfold column. cbn [flat_map]. apply length_app.
    + apply NoDup_distinct.
    + intros pair Hin. apply in_distinct. exact (pairs_of_labels _ _ _ Hin).
    + exact Hrow.
Qed.

(** No value is lost and none is made up: the returned table holds one
    value for each (cell, label) pair, that is for each row as many as the
    shorter of its cells and the labels. *)
Theorem data_dict_value_count (column_labels : list string) (content_rows : list node)
        (d : Dict.t (list value)) :
  Pokedex.get_pokedex_data_dict column_labels content_rows = Ok d ->
  value_count d
  = list_sum (map (fun row => Nat.min (length (Soup.find_all "td" row))
                                      (length column_labels))
                  content_rows).
Proof.
  intros Hd. assert (Hres := add_rows_ok_inv _ _ _ _ Hd).
  rewrite (data_dict_value _ _ Hres) in Hd. inversion Hd; subst d.
  unfold value_count. rewrite map_map. cbn [snd].
  rewrite (column_total _ _ Hres). f_equal. apply map_ext.
  intros row. apply length_combine.
Qed.

Lemma data_dict_value_count_witness :
  value_count [("A", [VInt 1; VInt 2; VStr "y"]); ("B", [VStr "x"])] = 4.
Proof.
  apply (data_dict_value_count ["A"; "B"; "A"] [tr ["1"; "x"; "2"; "z"]; tr ["y"]]).
  reflexivity.
Defined.

(** ** Well-formed tables *)

Lemma paired_value_at (column_labels : list string) :
  forall (cells : list node) (j : nat) (l : string),
    NoDup column_labels ->
    nth_error column_labels j = Some l ->
    length column_labels <= length cells ->
    Forall (fun pair => resolves (fst pair)) (combine cells column_labels) ->
    exists cell v,
      nth_error cells j = Some cell
      /\ get_cell_text cell = Ok v
      /\ paired_values l (combine cells column_labels) = [v].
Proof.
  induction column_labels as [| x ls IH]; intros cells j l Hnd Hj Hlen Hres.
  - destruct j; discriminate Hj.
  - destruct cells as [| c cs]; [simpl in Hlen; lia |].
    inversion Hnd as [| ? ? Hnotin Hnd']; subst.
    cbn [combine] in Hres. inversion Hres as [| ? ? [v Hv] Hrest]; subst.
    cbn [fst] in Hv. simpl in Hlen.
    destruct j as [| j].
    + simpl in Hj. inversion Hj; subst x. exists c, v.
      split; [reflexivity |]. split; [exact Hv |].
      unfold paired_values. cbn [combine flat_map fst snd].
      rewrite String.eqb_refl, (resolved_of_ok _ _ Hv).
      fold (paired_values l (combine cs ls)).
      rewrite paired_values_unpaired; [reflexivity |].
      rewrite labels_of_combine, firstn_all2 by lia. exact Hnotin.
    + simpl in Hj.
      destruct (IH cs j l Hnd' Hj ltac:(lia) Hrest) as (cell & w & Hcell & Hw & Hpv).
      exists cell, w. split; [exact Hcell |]. split; [exact Hw |].
      unfold paired_values. cbn [combine flat_map fst snd].
      fold (paired_values l (combine cs ls)).
      destruct (String.eqb_spec x l) as [-> | _]; [| exact Hpv].
      contradiction Hnotin. apply nth_error_In in Hj. exact Hj.
Qed.

(** With pairwise distinct labels and rows that have a cell for every
    label, the table is the transpose of the rows: the column of the label
    at position [j] holds, row after row, the value of the cell at position
    [j]. *)
Theorem data_dict_transposes (column_labels : list string) (content_rows : list node)
        (d : Dict.t (list value)) (j : nat) (l : string) :
  NoDup column_labels ->
  (forall row, In row content_rows ->
               length column_labels <= length (Soup.find_all "td" row)) ->
  Pokedex.get_pokedex_data_dict column_labels content_rows = Ok d ->
  nth_error column_labels j = Some l ->
  exists vs,
    Dict.getitem d l = Ok vs
    /\ Forall2 (fun row v =>
                  exists cell,
                    nth_error (Soup.find_all "td" row) j = Some cell
                    /\ get_cell_text cell = Ok v)
               content_rows vs.
Proof.
  intros Hnd Hcells Hd Hj.
  assert (Hres := add_rows_ok_inv _ _ _ _ Hd).
  destruct (data_dict_ok _ _ _ Hd) as [_ G].
  exists (column column_labels content_rows l). split.
  - unfold Dict.getitem. rewrite (G l (nth_error_In _ _ Hj)). reflexivity.
  - clear Hd G. unfold column.
    induction Hres as [| row rest Hrow Hrest IH]; [constructor |].
    destruct (paired_value_at column_labels (Soup.find_all "td" row) j l Hnd Hj)
      as (cell & v & Hcell & Hv & Hpv).
    + apply Hcells. left; reflexivity.
    + exact Hrow.
    + cbn [flat_map]. unfold pairs_of at 1. rewrite Hpv. cbn [app].
      constructor; [exists cell; split; assumption |].
      apply IH. intros row' Hin. apply Hcells. right; exact Hin.
Qed.

Lemma data_dict_transposes_witness :
  exists vs,
    Dict.getitem [("A", [VInt 1; VInt 2]); ("B", [VStr "x"; VStr "y"])] "B" = Ok vs
    /\ Forall2 (fun row v =>
                  exists cell,
                    nth_error (Soup.find_all "td" row) 1 = Some cell
                    /\ get_cell_text cell = Ok v)
               [tr ["1"; "x"]; tr ["2"; "y"; "z"]] vs.
Proof.
  apply (data_dict_transposes ["A"; "B"] [tr ["1"; "x"]; tr ["2"; "y"; "z"]]).
  - repeat constructor; simpl; intuition discriminate.
  - intros row [<- | [<- | []]]; simpl; lia.
  - reflexivity.
  - reflexivity.
Defined.

(** ** Rows taken in two parts *)

Lemma get_map_item {V : Type} (f : string -> V) (keys : list string) (l : string) :
  In l keys -> Dict.get (map (fun k => (k, f k)) keys) l = Some (f l).
Proof.
  induction keys as [| x rest IH]; simpl; [intros [] |].
  intros Hin. destruct (String.eqb_spec x l) as [-> | Hne]; [reflexivity |].
  apply IH. destruct Hin as [E | H]; [contradiction | exact H].
Qed.

Lemma merge_columns (f g : string -> list value) (keys : list string) :
  merge (map (fun k => (k, f k)) keys) (map (fun k => (k, g k)) keys)
  = map (fun k => (k, f k ++ g k)) keys.
Proof.
  unfold merge. rewrite map_map. apply map_ext_in. intros k Hin.
  cbn [fst snd]. rewrite (get_map_item g keys k Hin). reflexivity.
Qed.

Lemma column_app (column_labels : list string) (rows1 rows2 : list node) (l : string) :
  column column_labels (rows1 ++ rows2) l
  = column column_labels rows1 l ++ column column_labels rows2 l.
Proof. unfold column. apply flat_map_app. Qed.

(** The table of two runs of rows, one after the other, is made of the
    tables of the two runs, column by column; if either run raises, so does
    the whole. *)
Theorem data_dict_of_app (column_labels : list string) (rows1 rows2 : list node) :
  Pokedex.get_pokedex_data_dict column_labels (rows1 ++ rows2)
  = (d1 <- Pokedex.get_pokedex_data_dict column_labels rows1 ;;
     d2 <- Pokedex.get_pokedex_data_dict column_labels rows2 ;;
     Ok (merge d1 d2)).
Proof.
  destruct (Forall_or_not _ rows1 (row_resolves_decided column_labels)) as [H1 | H1].
  - destruct (Forall_or_not _ rows2 (row_resolves_decided column_labels)) as [H2 | H2].
    + rewrite (data_dict_value _ _ H1), (data_dict_value _ _ H2).
      rewrite (data_dict_value column_labels (rows1 ++ rows2))
        by (apply Forall_app; split; assumption).
      cbn [bind]. rewrite merge_columns. apply f_equal. apply map_ext.
      intros l. rewrite column_app. reflexivity.
    + rewrite (data_dict_value _ _ H1), (data_dict_fail _ _ H2).
      apply data_dict_fail. intros H. apply Forall_app in H. tauto.
  - rewrite (data_dict_fail _ _ H1).
    apply data_dict_fail. intros H. apply Forall_app in H. tauto.
Qed.

(** ** The sections of the table *)

(** [find] gives the first tag of the name among the descendants. *)
Lemma find_first (name : string) (n found : node) (before after : list node) :
  Soup.descendants n = before ++ found :: after ->
  Forall (fun d => Soup.is_tag name d = false) before ->
  Soup.is_tag name found = true ->
  Soup.find name n = Some found.
Proof.
  intros Hdesc Hbefore Hfound. unfold Soup.find, Soup.find_all.
  rewrite Hdesc, filter_app. cbn [filter]. rewrite Hfound.
  replace (filter (Soup.is_tag name) before) with (@nil node); [reflexivity |].
  symmetry. clear Hdesc.
  induction Hbefore as [| d rest Hd Hrest IH]; [reflexivity |].
  cbn [filter]. rewrite Hd. exact IH.
Qed.

(** The rows are those of the first body section in document order,
    wherever it lies below the table, each a row tag: the rows that come
    before it, a header's for one, and whatever follows it, a second body
    section included, are not returned. *)
Theorem content_rows_of_first_body
        (self : Pokedex.t) (table tbody : node) (before after : list node) :
  Pokedex.pokedex_table self = Some table ->
  Soup.descendants table = before ++ tbody :: after ->
  Forall (fun d => Soup.is_tag "tbody" d = false) before ->
  Soup.is_tag "tbody" tbody = true ->
  Pokedex.get_pokedex_content_rows self = Ok (Soup.find_all "tr" tbody)
  /\ Forall (fun row => Soup.is_tag "tr" row = true) (Soup.find_all "tr" tbody).
Proof.
  intros Htable Hdesc Hbefore Htbody. split.
  - unfold Pokedex.get_pokedex_content_rows. rewrite Htable. cbn [Pokedex.deref bind].
    rewrite (find_first "tbody" table tbody before after Hdesc Hbefore Htbody).
    reflexivity.
  - apply Forall_forall. intros row Hin. unfold Soup.find_all in Hin.
    apply filter_In in Hin. tauto.
Qed.

Lemma content_rows_of_first_body_witness :
  Pokedex.get_pokedex_content_rows
    {| Pokedex.pokedex_table :=
         Some (Tag "table" [Tag "thead" [Tag "tr" [Tag "th" [Text "A"]]];
                            Tag "div" [Tag "tbody" [tr ["1"]; tr ["2"]]];
                            Tag "tbody" [tr ["3"]]]) |}
  = Ok [tr ["1"]; tr ["2"]]
  /\ Forall (fun row => Soup.is_tag "tr" row = true) [tr ["1"]; tr ["2"]].
Proof.
  apply (content_rows_of_first_body
           {| Pokedex.pokedex_table :=
                Some (Tag "table" [Tag "thead" [Tag "tr" [Tag "th" [Text "A"]]];
                                   Tag "div" [Tag "tbody" [tr ["1"]; tr ["2"]]];
                                   Tag "tbody" [tr ["3"]]]) |}
           (Tag "table" [Tag "thead" [Tag "tr" [Tag "th" [Text "A"]]];
                         Tag "div" [Tag "tbody" [tr ["1"]; tr ["2"]]];
                         Tag "tbody" [tr ["3"]]])
           (Tag "tbody" [tr ["1"]; tr ["2"]])
           [Tag "thead" [Tag "tr" [Tag "th" [Text "A"]]];
            Tag "tr" [Tag "th" [Text "A"]];
            Tag "th" [Text "A"];
            Text "A";
            Tag "div" [Tag "tbody" [tr ["1"]; tr ["2"]]]]
           [tr ["1"]; td "1"; Text "1"; tr ["2"]; td "2"; Text "2";
            Tag "tbody" [tr ["3"]]; tr ["3"]; td "3"; Text "3"]).
  - reflexivity.
  - reflexivity.
  - repeat constructor.
  - reflexivity.
Defined.

(** ** The labels as pieces of the header text *)

Lemma split_not_nil (sep : ascii) (s : string) : PyStr.split sep s <> [].
Proof.
  destruct s as [| c rest]; simpl; [discriminate |].
  destruct (Ascii.eqb c sep); [discriminate |].
  destruct (PyStr.split sep rest); discriminate.
Qed.

Lemma split_pieces_free (sep : ascii) (s : string) :
  Forall (fun piece => PyStr.mem sep piece = false) (PyStr.split sep s).
Proof.
  induction s as [| c rest IH]; simpl; [repeat constructor |].
  destruct (Ascii.eqb c sep) eqn:Hc; [constructor; [reflexivity | exact IH] |].
  destruct (PyStr.split sep rest) as [| first others].
  - repeat constructor. simpl. rewrite Ascii.eqb_sym, Hc. reflexivity.
  - inversion IH as [| ? ? Hfirst Hothers]; subst.
    constructor; [| exact Hothers].
    simpl. rewrite Ascii.eqb_sym, Hc, Hfirst. reflexivity.
Qed.

(** Joining the pieces of a split gives the string back. *)
Lemma join_split (sep : ascii) (s : string) :
  PyStr.join (String sep "") (PyStr.split sep s) = s.
Proof.
  unfold PyStr.join. induction s as [| c rest IH]; [reflexivity |].
  cbn [PyStr.split]. destruct (Ascii.eqb_spec c sep) as [-> | Hne].
  - destruct (PyStr.split sep rest) as [| first others] eqn:Hs.
    + contradiction (split_not_nil sep rest).
    + cbn [String.concat append] in *. rewrite IH. reflexivity.
  - destruct (PyStr.split sep rest) as [| first others] eqn:Hs.
    + contradiction (split_not_nil sep rest).
    + destruct others as [| second others'].
      * simpl in *. rewrite IH. reflexivity.
      * cbn [String.concat append] in *. rewrite IH. reflexivity.
Qed.

(** With a header section present there is always at least one label, no
    label holds a line break, and the labels joined with line breaks are
    the header's text. *)
Theorem column_labels_are_header_text
        (self : Pokedex.t) (table thead : node) (labels : list string) :
  Pokedex.pokedex_table self = Some table ->
  Soup.find "thead" table = Some thead ->
  Pokedex.get_pokedex_column_labels self = Ok labels ->
  labels <> []
  /\ Forall (fun label => PyStr.mem Pokedex.LF label = false) labels
  /\ PyStr.join (String Pokedex.LF "") labels
     = Soup.get_text (String Pokedex.LF "") true thead.
Proof.
  intros Htable Hthead Hrun.
  unfold Pokedex.get_pokedex_column_labels in Hrun.
  rewrite Htable in Hrun. cbn [Pokedex.deref bind] in Hrun.
  rewrite Hthead in Hrun. cbn [Pokedex.deref bind] in Hrun.
  inversion Hrun; subst labels. repeat split.
  - apply split_not_nil.
  - apply split_pieces_free.
  - apply join_split.
Qed.

Lemma column_labels_are_header_text_witness :
  ["Sp."; "Atk"; "Def"] <> []
  /\ Forall (fun label => PyStr.mem Pokedex.LF label = false) ["Sp."; "Atk"; "Def"]
  /\ PyStr.join (String Pokedex.LF "") ["Sp."; "Atk"; "Def"]
     = Soup.get_text (String Pokedex.LF "") true
         (Tag "thead" [Tag "th" [Text (" Sp." ++ String Pokedex.LF "Atk ")%string];
                       Tag "th" [Text "Def"]]).
Proof.
  apply (column_labels_are_header_text
           {| Pokedex.pokedex_table :=
                Some (Tag "table"
                        [Tag "thead"
                           [Tag "th" [Text (" Sp." ++ String Pokedex.LF "Atk ")%string];
                            Tag "th" [Text "Def"]]]) |}
           (Tag "table"
              [Tag "thead" [Tag "th" [Text (" Sp." ++ String Pokedex.LF "Atk ")%string];
                            Tag "th" [Text "Def"]]])).
  - reflexivity.
  - reflexivity.
  - reflexivity.
Defined.

(** ** The script up to the table *)







(** The script raises [AttributeError] exactly when the table element, its
    header section or its body section is missing; a missing key is never
    what stops it. *)
Theorem main_data_dict_errors (pokedex : Pokedex.t) :
  (main_data_dict pokedex = Raise AttributeError <->
   match Pokedex.pokedex_table pokedex with
   | None => True
   | Some table =>
       contains_tag "thead" table = false \/ contains_tag "tbody" table = false
   end)
  /\ main_data_dict pokedex <> Raise KeyError.
Proof.
  unfold main_data_dict, Pokedex.get_pokedex_column_labels, Pokedex.get_pokedex_content_rows.
  destruct (Pokedex.pokedex_table pokedex) as [table |]; cbn [Pokedex.deref bind];
    [| split; [tauto | discriminate]].
  rewrite <- !find_none_iff.
  destruct (Soup.find "thead" table) as [thead |]; cbn [Pokedex.deref bind];
    [| split; [tauto | discriminate]].
  destruct (Soup.find "tbody" table) as [tbody |]; cbn [Pokedex.deref bind];
    [| split; [tauto | discriminate]].
  split.
  - split.
    + intros H.
      destruct (Forall_or_not _ (Soup.find_all "tr" tbody)
                  (row_resolves_decided
                     (PyStr.split Pokedex.LF
                        (Soup.get_text (String Pokedex.LF "") true thead))))
        as [Hres | Hbad].
      * rewrite (data_dict_value _ _ Hres) in H. discriminate H.
      * rewrite (data_dict_fail _ _ Hbad) in H. discriminate H.
    + intros [H | H]; discriminate H.
  - intros H.
    destruct (Forall_or_not _ (Soup.find_all "tr" tbody)
                (row_resolves_decided
                   (PyStr.split Pokedex.LF
                      (Soup.get_text (String Pokedex.LF "") true thead))))
      as [Hres | Hbad].
    + rewrite (data_dict_value _ _ Hres) in H. discriminate H.
    + rewrite (data_dict_fail _ _ Hbad) in H. discriminate H.
Qed.

(** ** Rows of uneven length *)

Lemma in_firstn {A : Type} (n : nat) (l : list A) (x : A) :
  In x (firstn n l) -> In x l.
Proof.
  intros H. rewrite <- (firstn_skipn n l). apply in_or_app. left; exact H.
Qed.

Lemma occurrence_in_firstn (labels : list string) :
  forall (j n : nat) (l : string),
    NoDup labels ->
    nth_error labels j = Some l ->
    length (filter (fun l' => String.eqb l' l) (firstn n labels))
    = if (j <? n)%nat then 1 else 0.
Proof.
  induction labels as [| x rest IH]; intros j n l Hnd Hj.
  - destruct j; discriminate Hj.
  - inversion Hnd as [| ? ? Hnotin Hnd']; subst.
    destruct n as [| n]; [destruct j; reflexivity |].
    cbn [firstn filter]. destruct j as [| j].
    + simpl in Hj. inversion Hj; subst x. rewrite String.eqb_refl.
      rewrite no_occurrence; [reflexivity |].
      intros H. apply Hnotin. exact (in_firstn _ _ _ H).
    + simpl in Hj. destruct (String.eqb_spec x l) as [-> | _].
      * contradiction Hnotin. exact (nth_error_In _ _ Hj).
      * rewrite (IH j n l Hnd' Hj). reflexivity.
Qed.

(** With pairwise distinct labels, the column of the label at position
    [j] has one value for each row that has more than [j] cells: a row
    too short for a label leaves no gap in that label's column, the later
    values move up. *)
Theorem column_skips_short_rows (column_labels : list string) (content_rows : list node)
        (d : Dict.t (list value)) (j : nat) (l : string) :
  NoDup column_labels ->
  Pokedex.get_pokedex_data_dict column_labels content_rows = Ok d ->
  nth_error column_labels j = Some l ->
  exists vs,
    Dict.getitem d l = Ok vs
    /\ length vs
       = length (filter (fun row => (j <? length (Soup.find_all "td" row))%nat)
                        content_rows).
Proof.
  intros Hnd Hd Hj.
  assert (Hres := add_rows_ok_inv _ _ _ _ Hd).
  destruct (data_dict_ok _ _ _ Hd) as [_ G].
  exists (column column_labels content_rows l). split.
  - unfold Dict.getitem. rewrite (G l (nth_error_In _ _ Hj)). reflexivity.
  - clear Hd G. unfold column.
    induction Hres as [| row rest Hrow Hrest IH]; [reflexivity |].
    cbn [flat_map filter]. rewrite length_app, IH.
    rewrite (paired_values_length l _ Hrow). unfold pairs_of.
    rewrite labels_of_combine, (occurrence_in_firstn _ j _ l Hnd Hj).
    destruct (j <? length (Soup.find_all "td" row))%nat; reflexivity.
Qed.

Lemma column_skips_short_rows_witness :
  exists vs,
    Dict.getitem [("A", [VInt 1; VInt 2; VInt 3]); ("B", [VStr "x"; VStr "z"])] "B" = Ok vs
    /\ length vs = 2.
Proof.
  apply (column_skips_short_rows
           ["A"; "B"] [tr ["1"; "x"]; tr ["2"]; tr ["3"; "z"]]
           [("A", [VInt 1; VInt 2; VInt 3]); ("B", [VStr "x"; VStr "z"])] 1 "B").
  - repeat constructor; simpl; intuition discriminate.
  - reflexivity.
  - reflexivity.
Defined.
